(** * Dumplings: the tool registry, the agent directory and the
      tool-invocation loop of [Agent.conversation_with_tool]

    A shallow embedding of [Dumplings/agent_tool.py], [Dumplings/Agent_list.py]
    and [Dumplings/Agent_Base_.py].

    Conventions of the embedding:
    - a Python [str] is a [string]; the characters of a text are its bytes;
    - a Python [dict] whose iteration order is observable is an
      insertion-ordered association list ([PyDict]); a dict that is only
      looked up is a [gmap];
    - a Python exception is a value of [exn]; code that may raise returns
      [result A];
    - the objects the loop talks to but that live outside the repository
      are arguments of the functions that use them: the replies of the HTTP
      transport ([response]), the Python runtime and libraries ([python]:
      [json.loads], [str()], the XML parser behind [BeautifulSoup]), and the
      tool callables themselves ([callable]). *)

From Stdlib Require Import Ascii String ZArith Lia.
From stdpp Require Import gmap strings list pretty.

Set Warnings "-register-all".

Open Scope string_scope.
Open Scope list_scope.

(** ** Python strings *)

Module PyStr.

(** [s.startswith(p)], returning the rest of [s] after [p]. *)
Fixpoint strip_prefix (p s : string) : option string :=
  match p with
  | EmptyString => Some s
  | String a p' =>
      match s with
      | EmptyString => None
      | String b s' => if Ascii.eqb a b then strip_prefix p' s' else None
      end
  end.

Definition startswith (s p : string) : bool :=
  match strip_prefix p s with Some _ => true | None => false end.

(** [p in s] for strings. *)
Fixpoint contains (p s : string) : bool :=
  if startswith s p then true
  else match s with
       | EmptyString => false
       | String _ s' => contains p s'
       end.

(** [s.find(p)] as a split: the text before the first occurrence of [p]
    and the text after it. *)
Fixpoint split_first (p s : string) : option (string * string) :=
  match strip_prefix p s with
  | Some rest => Some (EmptyString, rest)
  | None =>
      match s with
      | EmptyString => None
      | String c s' =>
          match split_first p s' with
          | Some (before, rest) => Some (String c before, rest)
          | None => None
          end
      end
  end.


(** [sep.join(l)]. *)
Fixpoint join (sep : string) (l : list string) : string :=
  match l with
  | [] => EmptyString
  | [x] => x
  | x :: l' => x +:+ sep +:+ join sep l'
  end.

(** The one-character string. *)
Definition chr (a : ascii) : string := String a EmptyString.

(** The double quote, which a literal cannot hold. *)
Definition dquote : string := chr "034"%char.

End PyStr.

(** ** Insertion-ordered dictionaries *)

Module PyDict.

Section Dict.
Context {V : Type}.

Definition t := list (string * V).

(** [d.get(k)] *)
Fixpoint get (k : string) (d : list (string * V)) : option V :=
  match d with
  | [] => None
  | (k', v) :: d' => if String.eqb k k' then Some v else get k d'
  end.

(** [d[k] = v]: an existing key keeps its place, a new key goes last. *)
Fixpoint set (k : string) (v : V) (d : list (string * V)) : list (string * V) :=
  match d with
  | [] => [(k, v)]
  | (k', v') :: d' =>
      if String.eqb k k' then (k, v) :: d' else (k', v') :: set k v d'
  end.

Definition keys (d : list (string * V)) : list string := d.*1.
Definition values (d : list (string * V)) : list V := d.*2.

End Dict.

End PyDict.

(** ** Python values and exceptions *)

(** The values that cross the boundary between the loop and its tools:
    what [json.loads] produces, what a tool receives and what it returns.
    [PObj] stands for any other object. *)
Inductive pyval :=
  | PNone
  | PBool (b : bool)
  | PInt (z : Z)
  | PStr (s : string)
  | PList (l : list pyval)
  | PDict (d : list (string * pyval))
  | PObj (id : nat).

(** The exception classes the code distinguishes. [SystemExit] and
    [KeyboardInterrupt] derive from [BaseException] only: [except Exception]
    does not catch them. *)
Inductive exn_class :=
  | TypeError
  | ValueError
  | KeyError
  | IndexError
  | AttributeError
  | ConnectionError
  | OtherException (cls : string)
  | SystemExit
  | KeyboardInterrupt.

(** An exception: its class and [str(e)]. *)
Record exn := Exn { exn_class_of : exn_class; exn_str : string }.

(** [isinstance(e, Exception)] *)
Definition is_Exception (e : exn) : bool :=
  match exn_class_of e with
  | SystemExit | KeyboardInterrupt => false
  | _ => true
  end.

(** [isinstance(e, TypeError)] *)
Definition is_TypeError (e : exn) : bool :=
  match exn_class_of e with TypeError => true | _ => false end.

(** The result of code that may raise. *)
Inductive result (A : Type) :=
  | Ok (a : A)
  | Raise (e : exn).
Arguments Ok {A} a.
Arguments Raise {A} e.

(** ** Callables *)

(** [inspect.Parameter.kind] *)
Inductive param_kind :=
  | POSITIONAL_ONLY
  | POSITIONAL_OR_KEYWORD
  | VAR_POSITIONAL
  | KEYWORD_ONLY
  | VAR_KEYWORD.

(** One entry of [inspect.signature(f).parameters]: [has_default] is
    [p.default != inspect.Parameter.empty]. *)
Record parameter := MkParameter {
  p_name : string;
  p_kind : param_kind;
  p_has_default : bool
}.

(** The arguments of one call: the positional ones and the keyword ones. *)
Record call_args := Args {
  args_pos : list pyval;
  args_kw : list (string * pyval)
}.

(** A Python callable, as far as the loop can observe it: the signature
    [inspect.signature] reports, and what a call does.  [W] is the part of
    the process state that tools read and write; a call that cannot bind its
    arguments raises [TypeError] like any other. *)
Record callable (W : Type) := Callable {
  signature : list parameter;
  run : call_args → W → result pyval * W
}.
Arguments Callable {W} _ _.
Arguments signature {W} _.
Arguments run {W} _ _ _.

(** ** The tool registry ([agent_tool.py]) *)

Module Registry.

Section Registry.
Context {W : Type}.

(** One value of [tool._tools]. The OpenAI schema stored beside it is
    [schema_parameters]: [parameters or {...empty object schema...}]. *)
Record tool_info := ToolInfo {
  function : callable W;
  allowed_agents : option (list string);
  description : string;
  name : string;
  parameters : option pyval;
  schema_parameters : pyval
}.

(** The instance state of class [tool]. *)
Record t := Tool {
  _tools : list (string * tool_info);
  _uuid_to_name : gmap string string
}.

(** [tool.__init__] *)
Definition empty : t := Tool [] ∅.

(** [tool.register_agent_uuid] *)
Definition register_agent_uuid (uuid nm : string) (r : t) : t :=
  Tool (_tools r) (<[uuid := nm]> (_uuid_to_name r)).

(** The [allowed_agents] argument of [register_tool]:
    [None], one string, or a list of strings. *)
Inductive allowed_arg :=
  | AllowNone
  | AllowStr (s : string)
  | AllowList (l : list string).

Definition permitted_of (a : allowed_arg) : option (list string) :=
  match a with
  | AllowNone => None
  | AllowStr s => Some [s]
  | AllowList l => Some l
  end.

Definition default_schema_parameters : pyval :=
  PDict [("type", PStr "object"); ("properties", PDict []);
         ("required", PList [])].

(** [tool.register_tool(allowed_agents, description, name, parameters)(func)]:
    [func_name] is [func.__name__]. *)
Definition register_tool (allowed : allowed_arg) (descr : string)
    (nm : option string) (params : option pyval)
    (func_name : string) (func : callable W) (r : t) : t :=
  let tool_name :=
    match nm with
    | Some n => if String.eqb n EmptyString then func_name else n
    | None => func_name
    end in
  let info := {|
    function := func;
    allowed_agents := permitted_of allowed;
    description := descr;
    name := tool_name;
    parameters := params;
    schema_parameters :=
      match params with
      | Some (PDict []) | None => default_schema_parameters
      | Some p => p
      end |} in
  Tool (PyDict.set tool_name info (_tools r)) (_uuid_to_name r).

(** The [uuid -> name] step of [check_permission]. *)
Definition canonical_name (r : t) (agent_name : string) : string :=
  match _uuid_to_name r !! agent_name with
  | Some n => n
  | None => agent_name
  end.

(** [tool.check_permission] *)
Definition check_permission (r : t) (agent_name tool_name : string) : bool :=
  match PyDict.get tool_name (_tools r) with
  | None => false
  | Some info =>
      let agent_name := canonical_name r agent_name in
      match allowed_agents info with
      | None => true
      | Some allowed => bool_decide (agent_name ∈ allowed)
      end
  end.

(** [tool.get_tool_info] *)
Definition get_tool_info (r : t) (tool_name : string) : option tool_info :=
  PyDict.get tool_name (_tools r).

(** [tool.get_all_tools_info]: the permitted tools in registration order,
    each with its description and parameters. *)
Definition get_all_tools_info (r : t) (agent_uuid : string)
    : list (string * (string * option pyval)) :=
  omap (λ kv : string * tool_info,
          if check_permission r agent_uuid kv.1
          then Some (kv.1, (description kv.2, parameters kv.2))
          else None)
       (_tools r).

(** [tool.get_all_tools_schema]: name, description and parameter schema
    of each permitted tool, in registration order. *)
Definition get_all_tools_schema (r : t) (agent_uuid : string)
    : list (string * string * pyval) :=
  omap (λ kv : string * tool_info,
          if check_permission r agent_uuid kv.1
          then Some (name kv.2, description kv.2, schema_parameters kv.2)
          else None)
       (_tools r).
(** [tool.get_tool_schema]: name, description and parameter schema. *)
Definition get_tool_schema (r : t) (tool_name : string)
    : option (string * string * pyval) :=
  (λ info, (name info, description info, schema_parameters info))
    <$> PyDict.get tool_name (_tools r).

(** [tool.list_tools]: description and allow-list of every tool, in
    registration order. *)
Definition list_tools (r : t) : list (string * (string * option (list string))) :=
  (λ kv, (kv.1, (description kv.2, allowed_agents kv.2))) <$> _tools r.

(** [name or func.__name__]: the key under which [register_tool] files a
    function. *)
Definition tool_name_of (nm : option string) (func_name : string) : string :=
  match nm with
  | Some n => if String.eqb n EmptyString then func_name else n
  | None => func_name
  end.

(** What [_tools] is as a Python dict filled by [register_tool]: no key
    occurs twice, and every entry carries its key as its name. *)
Definition well_formed (r : t) : Prop :=
  NoDup (_tools r).*1 ∧ Forall (λ kv, name kv.2 = kv.1) (_tools r).


End Registry.

Arguments tool_info : clear implicits.
Arguments t : clear implicits.

End Registry.

(** ** The agent directory ([Agent_list.py]) *)

Module Directory.

(** Objects live in a store and are named by their address: two keys that
    hold the same address hold the same object. *)
Abbreviation addr := nat.

Section Directory.
Context {Obj : Type}.

(** The module state: the objects allocated so far and the global
    [agent_list]. *)
Record t := Dir {
  store : list Obj;
  agent_list : gmap string addr
}.

Definition empty : t := Dir [] ∅.

(** [cls()] after [cls.uuid = uuid; cls.name = name]: the constructor sees
    both class attributes; it returns the new instance or raises. *)
Definition class := string → string → result Obj.

(** Allocation of a new object: its address is the next free one. *)
Definition alloc (o : Obj) (d : t) : addr * t :=
  (length (store d), Dir (store d ++ [o]) (agent_list d)).

(** [register_agent(uuid, name)(cls)]: the decorator returns the instance. *)
Definition register_agent (uuid nm : string) (cls : class) (d : t)
    : result (addr * t) :=
  match cls uuid nm with
  | Raise e => Raise e
  | Ok inst =>
      let '(a, d1) := alloc inst d in
      let d2 := Dir (store d1) (<[uuid := a]> (agent_list d1)) in
      let d3 := Dir (store d2) (<[nm := a]> (agent_list d2)) in
      Ok (a, d3)
  end.

(** The decorators of a program, applied one after the other as its
    classes are defined: each is [register_agent(uuid, name)(cls)]. The
    result lists the instances in that order. *)
Fixpoint register_agents (regs : list (string * string * class)) (d : t)
    : result (list addr * t) :=
  match regs with
  | [] => Ok ([], d)
  | (uuid, nm, cls) :: rest =>
      match register_agent uuid nm cls d with
      | Raise e => Raise e
      | Ok (a, d1) =>
          match register_agents rest d1 with
          | Raise e => Raise e
          | Ok (l, d2) => Ok (a :: l, d2)
          end
      end
  end.

(** [agent_list[key]], followed to the object. *)
Definition lookup_instance (d : t) (key : string) : option Obj :=
  a ← agent_list d !! key; store d !! a.
End Directory.

Arguments t : clear implicits.
Arguments class : clear implicits.

End Directory.

(** ** The inline-tag extractor (the regular expressions of
       [conversation_with_tool]) *)

Module Xml.

(** [\w] on an ASCII character: a letter, a digit or the underscore. A
    character outside ASCII is several bytes of the text; its class
    depends on the Unicode tables and on the whole character, and is left
    to [nonascii_word], byte by byte: the extractor below is that of the
    code on ASCII texts, and an approximation of it on the others. *)
Definition is_word (nonascii_word : ascii → bool) (c : ascii) : bool :=
  let n := nat_of_ascii c in
  if (n <? 128)%nat then
    ((48 <=? n) && (n <=? 57) || (65 <=? n) && (n <=? 90)
     || (97 <=? n) && (n <=? 122) || (n =? 95))%nat
  else nonascii_word c.

(** The longest run of word characters at the head of [s], and the rest:
    what the greedy [\w+] takes. *)
Fixpoint word_run (nw : ascii → bool) (s : string) : string * string :=
  match s with
  | EmptyString => (EmptyString, EmptyString)
  | String c s' =>
      if is_word nw c then
        let '(w, rest) := word_run nw s' in (String c w, rest)
      else (EmptyString, s)
  end.

(** A match of [<(\w+)>.*?</\1>] (with [re.S]) that starts at the head of
    [s]: the matched text. The name is the whole word run before [>] (a
    shorter one would be followed by a word character, not by [>]); the lazy
    [.*?] stops at the first closing tag of that name. *)
Definition match_block (nw : ascii → bool) (s : string) : option string :=
  match s with
  | String "<" s1 =>
      match word_run nw s1 with
      | (EmptyString, _) => None
      | (nm, String ">" s2) =>
          let close := "</" +:+ nm +:+ ">" in
          match PyStr.split_first close s2 with
          | Some (body, _) => Some ("<" +:+ nm +:+ ">" +:+ body +:+ close)
          | None => None
          end
      | _ => None
      end
  | _ => None
  end.

(** [[m.group(0) for m in xml_pattern.finditer(s)]]: the matches from left
    to right, none overlapping; [skip] counts the characters of the last
    match still to pass. *)
Fixpoint finditer (nw : ascii → bool) (skip : nat) (s : string) : list string :=
  match s with
  | EmptyString => []
  | String _ s' =>
      match skip with
      | S k => finditer nw k s'
      | O =>
          match match_block nw s with
          | Some b => b :: finditer nw (String.length b - 1) s'
          | None => finditer nw 0 s'
          end
      end
  end.

(** A match of [</?(out_text|thinking)>] at the head of [s]: its length. *)
Definition wrapper_at (s : string) : option nat :=
  let tags := ["<out_text>"; "</out_text>"; "<thinking>"; "</thinking>"] in
  String.length <$> head (filter (λ t, PyStr.startswith s t = true) tags).

(** [clean_pattern.sub('', s)] *)
Fixpoint clean (skip : nat) (s : string) : string :=
  match s with
  | EmptyString => EmptyString
  | String c s' =>
      match skip with
      | S k => clean k s'
      | O =>
          match wrapper_at s with
          | Some n => clean (n - 1) s'
          | None => String c (clean 0 s')
          end
      end
  end.

(** [xml_blocks]: the tool blocks of a turn's text. *)
Definition xml_blocks (nw : ascii → bool) (full_content : string) : list string :=
  finditer nw 0 (clean 0 full_content).

(** What [BeautifulSoup(block, "xml")] builds: tags and strings. *)
Inductive node :=
  | NTag (tag_name : string) (children : list node)
  | NText (text : string).

(** [child.text]: the strings below a node, joined. *)
Fixpoint node_text (n : node) : string :=
  match n with
  | NText s => s
  | NTag _ cs =>
      (fix all (l : list node) : string :=
         match l with
         | [] => EmptyString
         | c :: l' => node_text c +:+ all l'
         end) cs
  end.

(** The parameter dict built from [root.children]: one entry per child
    that is a tag, a later child of the same name replacing the value. *)
Definition xml_params (children : list node) : list (string * string) :=
  foldl (λ params child,
           match child with
           | NTag nm _ => PyDict.set nm (node_text child) params
           | NText _ => params
           end)
        [] children.

End Xml.

(** ** The agent ([Agent_Base_.py]) *)

Module Agent.

Inductive role := system | user | assistant | tool.

(** One entry of [tool_calls_list]:
    [{'id': .., 'function': {'name': .., 'arguments': ..}}]. *)
Record tool_call := ToolCall {
  call_id : option string;
  call_name : string;
  call_arguments : string
}.

(** The ['function'] object of a streamed call fragment; [None] is a key
    that is absent (or, for the arguments, null). *)
Record fragment_function := FragmentFunction {
  frag_name : option string;
  frag_arguments : option string
}.

(** One element of [delta['tool_calls']]. *)
Record fragment := Fragment {
  frag_index : option Z;
  frag_id : option string;
  frag_function : option fragment_function
}.

(** The messages the code puts in [self.history]. *)
Inductive message :=
  | Msg (r : role) (content : string)
  | MsgParts (r : role) (text : string) (image_urls : list string)
  | MsgToolCalls (tool_calls : list tool_call)
  | MsgTool (tool_call_id : option string) (name : string) (content : pyval).

(** The dict [pack] hands to [out]. *)
Inductive content :=
  | Task
  | ToolUse (tool_name : option string) (tool_parameter : option pyval)
            (ai_uuid ai_name : string)
  | Message (message : option string) (ai_uuid ai_name : string) (other : bool).

(** What the agent writes out: a dict given to [self.out], or a [print]. *)
Inductive output :=
  | Out (c : content)
  | Print (s : string).

(** The body of one request to the provider: the history at that moment
    and, with function calling, the tool schemas. *)
Record request := Request {
  req_messages : list message;
  req_tools : option (list (string * string * pyval))
}.

Record usage := Usage {
  prompt_tokens : Z;
  completion_tokens : Z;
  total_tokens : Z
}.

(** One decoded [data:] line of a streamed reply: [delta.get('tool_calls')],
    [delta.get('content', '')] and [chunk.get('usage')]. *)
Record chunk := Chunk {
  delta_tool_calls : list fragment;
  delta_content : string;
  chunk_usage : option usage
}.

(** [response_json['choices'][0]['message']] and [response_json['usage']]
    of a reply received whole. *)
Record whole := Whole {
  message_content : option string;
  message_tool_calls : list tool_call;
  whole_usage : option usage
}.

(** One reply of the provider, under the two readings the code has of it:
    the decoded lines up to [[DONE]] (read when [self.stream]), and the JSON
    body ([None] when reading it raises) with the raw text. *)
Record response := Response {
  rsp_chunks : list chunk;
  rsp_json : option whole;
  rsp_text : string
}.

(** The functions of the Python runtime and of the libraries that the loop
    calls: the class of non-ASCII characters under [\w], [json.loads],
    [str()], and [BeautifulSoup(block, "xml").find()] (the name and the
    children of the first tag, if any). *)
Record python := Python {
  nonascii_word : ascii → bool;
  json_loads : string → result pyval;
  str : pyval → string;
  soup_find : string → option (string * list Xml.node)
}.

Section Agent.
Context {W : Type}.

(** What [getattr(self, name)] finds, for a name other than the data
    attributes below. *)
Inductive attr :=
  | Method (f : callable W)
  | Data.

(** An agent instance: the class attributes and what the class defines. *)
Record agent := MkAgent {
  uuid : string;
  name : string;
  class_name : string;
  prompt : string;
  fc_model : bool;
  stream : bool;
  getattr : string → option attr
}.

(** The state the loop reads and writes. *)
Record state := State {
  history : list message;
  stream_run : bool;
  outputs : list output;
  calls : list (string * call_args);
  requests : list request;
  world : W
}.

(** Computations over the state that may raise. *)
Definition M (A : Type) : Type := state → result A * state.

#[global] Instance M_ret : MRet M := λ A a st, (Ok a, st).

#[global] Instance M_bind : MBind M :=
  λ A B f m st, match m st with
                | (Ok a, st') => f a st'
                | (Raise e, st') => (Raise e, st')
                end.

Definition raise {A} (e : exn) : M A := λ st, (Raise e, st).

(** [try: m  except C: h(e)], for the exceptions [catches] accepts. *)
Definition try_except {A} (m : M A) (catches : exn → bool) (h : exn → M A) : M A :=
  λ st, match m st with
        | (Raise e, st') => if catches e then h e st' else (Raise e, st')
        | r => r
        end.

Definition history_append (m : message) : M unit :=
  λ st, (Ok (), State (history st ++ [m]) (stream_run st) (outputs st)
                      (calls st) (requests st) (world st)).

Definition get_history : M (list message) :=
  λ st, (Ok (history st), st).

Definition set_history (h : list message) : M unit :=
  λ st, (Ok (), State h (stream_run st) (outputs st)
                      (calls st) (requests st) (world st)).

Definition set_stream_run (b : bool) : M unit :=
  λ st, (Ok (), State (history st) b (outputs st)
                      (calls st) (requests st) (world st)).

Definition emit (o : output) : M unit :=
  λ st, (Ok (), State (history st) (stream_run st) (outputs st ++ [o])
                      (calls st) (requests st) (world st)).

(** [requests.post] with the history as it stands. *)
Definition post (tools : option (list (string * string * pyval))) : M unit :=
  λ st, (Ok (), State (history st) (stream_run st) (outputs st) (calls st)
                      (requests st ++ [Request (history st) tools]) (world st)).

(** A call of a tool: it is recorded, and it runs on the world. This is a
    tool that is a function of its arguments and of what lies outside the
    calling agent (a registered function, an MCP wrapper, [list_agents]).
    The callables of class [Agent] that work on the agent itself
    ([Connectivity], [conversation_with_tool], [pack], [out]) are not of
    this kind; a block that names one of them is outside what follows. *)
Definition call (tool_name : string) (f : callable W) (a : call_args) : M pyval :=
  λ st, let '(r, w) := run f a (world st) in
        (r, State (history st) (stream_run st) (outputs st)
                  (calls st ++ [(tool_name, a)]) (requests st) w).


(** [m] leaves the component [f] of the state as it is. With [requests]
    for [f]: [m] sends no request. *)
Definition keeps {A X} (f : state → X) (m : M A) : Prop :=
  ∀ st, f (m st).2 = f st.

(** *** [pack] and [out] *)

(** [self.pack(...)]: the dict is built and given to [self.out]. *)
Definition pack (ag : agent) (message : option string) (tool_model : bool)
    (tool_name : option string) (tool_parameter : option pyval)
    (finish_task other : bool) : M unit :=
  emit (Out (if finish_task then Task
             else if tool_model
                  then ToolUse tool_name tool_parameter (uuid ag) (name ag)
                  else Message message (uuid ag) (name ag) other)).

(** *** Receiving a reply *)

(** [entry['function']['arguments'] += a] *)
Definition extend (a : string) (tc : tool_call) : tool_call :=
  ToolCall (call_id tc) (call_name tc) (call_arguments tc +:+ a).

(** The body of [for call in tool_calls] (streaming): a fragment whose
    index is at least the number of entries so far appends an entry; any
    other index is used as a Python list index into the entries. *)
Definition accumulate (l : list tool_call) (c : fragment) : result (list tool_call) :=
  match frag_index c with
  | None => Ok l
  | Some idx =>
      if (Z.of_nat (length l) <=? idx)%Z then
        match frag_function c with
        | None => Raise (Exn KeyError "'function'")
        | Some f =>
            match frag_name f with
            | None => Raise (Exn KeyError "'name'")
            | Some n =>
                Ok (l ++ [ToolCall (frag_id c) n (default EmptyString (frag_arguments f))])%list
            end
        end
      else
        match frag_function c with
        | None => Raise (Exn KeyError "'function'")
        | Some f =>
            match frag_arguments f with
            | None => Ok l
            | Some a =>
                let pos := (if idx <? 0 then Z.of_nat (length l) + idx else idx)%Z in
                if (pos <? 0)%Z then Raise (Exn IndexError "list index out of range")
                else Ok (alter (extend a) (Z.to_nat pos) l)
            end
        end
  end.

(** The fragments of one chunk, in order. *)
Fixpoint accumulate_all (l : list tool_call) (cs : list fragment) : result (list tool_call) :=
  match cs with
  | [] => Ok l
  | c :: cs' =>
      match accumulate l c with
      | Ok l' => accumulate_all l' cs'
      | Raise e => Raise e
      end
  end.

Definition newline : string := PyStr.chr "010"%char.

Definition usage_text (u : usage) : string :=
  newline +:+ "本次请求用量：提示 " +:+ pretty (prompt_tokens u) +:+ " tokens，"
  +:+ "生成 " +:+ pretty (completion_tokens u) +:+ " tokens，"
  +:+ "总计 " +:+ pretty (total_tokens u) +:+ " tokens。".

Definition report_usage (ag : agent) (u : usage) : M unit :=
  _ ← pack ag None false None None true false;
  pack ag (Some (usage_text u)) false None None false true.

(** The streaming branch: [for line in rsp.iter_lines(...)], over the
    lines that decode. The [continue] after the fragments of a chunk
    belongs to the inner [for]: the content and the usage of the same chunk
    are read as well. *)
Fixpoint receive_stream (ag : agent) (chunks : list chunk)
    (full_content : string) (tool_calls_list : list tool_call)
    : M (string * list tool_call) :=
  match chunks with
  | [] => mret (full_content, tool_calls_list)
  | ch :: rest =>
      tool_calls_list ←
        (if fc_model ag then
           match accumulate_all tool_calls_list (delta_tool_calls ch) with
           | Ok l => mret l
           | Raise e => raise e
           end
         else mret tool_calls_list);
      full_content ←
        (if String.eqb (delta_content ch) EmptyString then mret full_content
         else _ ← pack ag (Some (delta_content ch)) false None None false false;
              mret (full_content +:+ delta_content ch));
      _ ← match chunk_usage ch with
          | Some u => _ ← set_stream_run false; report_usage ag u
          | None => mret ()
          end;
      receive_stream ag rest full_content tool_calls_list
  end.

(** The other branch: the reply is read whole; when that fails the raw text
    is the content. *)
Definition receive_whole (ag : agent) (rsp : response)
    : M (option string * list tool_call) :=
  _ ← set_stream_run false;
  match rsp_json rsp with
  | None => mret (Some (rsp_text rsp), [])
  | Some w =>
      _ ← match message_content w with
          | Some c => if String.eqb c EmptyString then mret ()
                      else pack ag (Some c) false None None false false
          | None => mret ()
          end;
      _ ← match whole_usage w with
          | Some u => report_usage ag u
          | None => mret ()
          end;
      mret (message_content w, if fc_model ag then message_tool_calls w else [])
  end.

(** From [full_content = ""] to [logger.info(full_content)]. *)
Definition receive (ag : agent) (rsp : response) : M (option string * list tool_call) :=
  _ ← set_stream_run true;
  if stream ag then
    '(text, l) ← receive_stream ag (rsp_chunks rsp) EmptyString [];
    mret (Some text, l)
  else receive_whole ag rsp.

(** *** Finding the callable of a tool name *)

(** Registry first (when the agent is permitted), then a callable attribute
    of the agent, else nothing. *)
Definition find_tool (ag : agent) (reg : Registry.t W) (tool_name : string)
    : option (callable W) :=
  let tool_func :=
    if Registry.check_permission reg (uuid ag) tool_name
    then Registry.function <$> Registry.get_tool_info reg tool_name
    else None in
  match tool_func with
  | Some f => Some f
  | None =>
      match getattr ag tool_name with
      | Some (Method m) => Some m
      | _ => None
      end
  end.

(** *** The native (function calling) path *)

(** One element of the native [tool_results]: the error dict of a tool
    that was not found, or a result dict with its three keys. *)
Inductive native_result :=
  | NativeError (error : string)
  | NativeResult (tool_call_id : option string) (name : string) (content : pyval).

(** The call of [tool_func] with the value [json.loads] gave spread as
    keyword arguments. *)
Definition call_with_mapping (tool_name : string) (f : callable W) (args : pyval)
    : M pyval :=
  match args with
  | PDict d => call tool_name f (Args [] d)
  | _ => raise (Exn TypeError "argument after ** must be a mapping")
  end.

(** The body of [for tool_call in tool_calls_list]. *)
Definition native_dispatch (py : python) (ag : agent) (reg : Registry.t W)
    (tc : tool_call) : M native_result :=
  let tool_name := call_name tc in
  match find_tool ag reg tool_name with
  | None => mret (NativeError ("找不到工具 '" +:+ tool_name +:+ "'"))
  | Some tool_func =>
      try_except
        (args ← match json_loads py (call_arguments tc) with
                 | Ok v => mret v
                 | Raise e => raise e
                 end;
         _ ← pack ag None false (Some tool_name) (Some args) false false;
         result ← call_with_mapping tool_name tool_func args;
         mret (NativeResult (call_id tc) tool_name result))
        is_Exception
        (λ e, mret (NativeResult (call_id tc) tool_name
                      (PStr ("执行工具 " +:+ tool_name +:+ " 时出错: " +:+ exn_str e))))
  end.

Fixpoint native_loop (py : python) (ag : agent) (reg : Registry.t W)
    (tcs : list tool_call) (tool_results : list native_result)
    : M (list native_result) :=
  match tcs with
  | [] => mret tool_results
  | tc :: rest =>
      r ← native_dispatch py ag reg tc;
      native_loop py ag reg rest (tool_results ++ [r])%list
  end.

(** [for result in tool_results: self.history.append({... result['tool_call_id'] ...})] *)
Fixpoint append_native_results (rs : list native_result) : M unit :=
  match rs with
  | [] => mret ()
  | NativeError _ :: _ => raise (Exn KeyError "'tool_call_id'")
  | NativeResult i n c :: rest =>
      _ ← history_append (MsgTool i n c);
      append_native_results rest
  end.

(** *** The inline-tag path *)

(** The number of parameters with no default that are neither [*args] nor
    [**kwargs]. *)
Definition param_count (sig : list parameter) : nat :=
  length (List.filter
            (λ p, negb (p_has_default p)
                  && match p_kind p with
                     | VAR_POSITIONAL | VAR_KEYWORD => false
                     | _ => true
                     end)
            sig).

(** [any(p.kind == inspect.Parameter.VAR_KEYWORD for p in ...)] *)
Definition has_kwargs (sig : list parameter) : bool :=
  existsb (λ p, match p_kind p with VAR_KEYWORD => true | _ => false end) sig.

(** [**params] *)
Definition keywords (params : list (string * string)) : call_args :=
  Args [] (prod_map id PStr <$> params).

(** The call of the tool, from [sig = inspect.signature(tool_func)] on. *)
Definition invoke (tool_name : string) (tool_func : callable W)
    (params : list (string * string)) (block : string) : M pyval :=
  let sig := signature tool_func in
  if has_kwargs sig || (param_count sig =? 0)%nat then
    match params with
    | [] => call tool_name tool_func (Args [] [])
    | _ => call tool_name tool_func (keywords params)
    end
  else if (param_count sig =? 1)%nat && (length params =? 1)%nat then
    match PyDict.values params with
    | v :: _ => call tool_name tool_func (Args [PStr v] [])
    | [] => raise (Exn IndexError "list index out of range")
    end
  else
    try_except (call tool_name tool_func (keywords params)) is_TypeError
               (λ _, call tool_name tool_func (Args [PStr block] [])).

(** [bool(v)] *)
Definition truthy (v : pyval) : bool :=
  match v with
  | PNone => false
  | PBool b => b
  | PInt z => negb (z =? 0)%Z
  | PStr s => negb (String.eqb s EmptyString)
  | PList l => match l with [] => false | _ => true end
  | PDict d => match d with [] => false | _ => true end
  | PObj _ => true
  end.

(** [', '.join(v)]: the elements of a list must all be strings; a dict
    gives its keys; another value does not join. *)
Definition join_names (v : pyval) : result string :=
  match v with
  | PList l =>
      match mapM (λ x, match x with PStr s => Some s | _ => None end) l with
      | Some names => Ok (PyStr.join ", " names)
      | None => Raise (Exn TypeError "sequence item: expected str instance")
      end
  | PDict d => Ok (PyStr.join ", " d.*1)
  | _ => Raise (Exn TypeError "can only join an iterable")
  end.

(** The [AttributeError] of an agent that has no
    [_get_all_available_tools]. *)
Definition no_helper_error (ag : agent) : exn :=
  Exn AttributeError
      ("'" +:+ class_name ag
       +:+ "' object has no attribute '_get_all_available_tools'").

(** [self._get_all_available_tools()]: the attribute is looked up on the
    agent like any other. *)
Definition get_all_available_tools (ag : agent) : M pyval :=
  match getattr ag "_get_all_available_tools" with
  | None => raise (no_helper_error ag)
  | Some Data => raise (Exn TypeError "object is not callable")
  | Some (Method f) => call "_get_all_available_tools" f (Args [] [])
  end.

(** The [tool_func is None] branch of a block. *)
Definition tool_not_found (ag : agent) (tool_name : string) : M pyval :=
  available_tools ← get_all_available_tools ag;
  let tool_error := "工具错误：找不到工具 '" +:+ tool_name +:+ "'。" in
  tool_error ←
    (if truthy available_tools then
       match join_names available_tools with
       | Ok names => mret (tool_error +:+ " 你可以使用以下工具：" +:+ names)
       | Raise e => raise e
       end
     else mret tool_error);
  _ ← history_append (Msg system tool_error);
  mret (PDict [("error", PStr tool_error)]).

(** [print(block)], then [self.pack(tool_name=.., tool_parameter=params)]. *)
Definition announce (ag : agent) (block tool_name : string)
    (params : list (string * string)) : M unit :=
  _ ← emit (Print block);
  pack ag None false (Some tool_name)
       (Some (PDict (prod_map id PStr <$> params))) false false.

(** The state [announce] leaves. *)
Definition announced (ag : agent) (block : string) (st : state) : state :=
  State (history st) (stream_run st)
        ((outputs st ++ [Print block])
           ++ [Out (Message None (uuid ag) (name ag) false)])
        (calls st) (requests st) (world st).

(** [for block in xml_blocks], with the two lists it fills. *)
Fixpoint xml_loop (py : python) (ag : agent) (reg : Registry.t W)
    (blocks : list string) (tool_results : list pyval) (tool_names : list string)
    : M (list pyval * list string) :=
  match blocks with
  | [] => mret (tool_results, tool_names)
  | block :: rest =>
      match soup_find py block with
      | None => raise (Exn ValueError "空 XML")
      | Some (tool_name, children) =>
          match find_tool ag reg tool_name with
          | None =>
              err ← tool_not_found ag tool_name;
              xml_loop py ag reg rest (tool_results ++ [err])%list tool_names
          | Some tool_func =>
              let params := Xml.xml_params children in
              _ ← announce ag block tool_name params;
              result ← invoke tool_name tool_func params block;
              xml_loop py ag reg rest (tool_results ++ [result])%list
                       (tool_names ++ [tool_name])%list
          end
      end
  end.

(** The loop that reports the results: it stops at the first result that
    has no name at its position. *)
Fixpoint append_results (py : python) (tool_results : list pyval)
    (tool_names : list string) : M unit :=
  match tool_results, tool_names with
  | i :: results, n :: names =>
      _ ← history_append (Msg system (n +:+ " results: " +:+ str py i));
      append_results py results names
  | _, _ => mret ()
  end.

Definition completion_marker : string := "<attempt_completion>".

Definition completion_message : string :=
  newline +:+ "[系统] AI 已标记任务完成，程序退出。".

(** *** One turn, and the loop *)

(** What [conversation_with_tool] returns. *)
Inductive retval :=
  | RetText (full_content : string)
  | RetMessage (m : message).

(** How a turn ends when it does not raise: with the recursive call
    [self.conversation_with_tool(tool=True)], or with a value. *)
Inductive step :=
  | Continue
  | Return (v : retval).

(** The part of [conversation_with_tool] under
    [if fc_enabled and tool_calls_list]: it always ends with the recursive
    call. *)
Definition native_turn (py : python) (ag : agent) (reg : Registry.t W)
    (tool_calls_list : list tool_call) : M step :=
  _ ← history_append (MsgToolCalls tool_calls_list);
  tool_results ← native_loop py ag reg tool_calls_list [];
  _ ← append_native_results tool_results;
  mret Continue.

(** The rest of [conversation_with_tool], from the two regular
    expressions to the last [return]. [sys.exit(0)] raises [SystemExit]. *)
Definition xml_turn (py : python) (ag : agent) (reg : Registry.t W)
    (full_content : string) (tool : bool) : M step :=
  '(tool_results, tool_names) ←
    xml_loop py ag reg (Xml.xml_blocks (nonascii_word py) full_content) [] [];
  if PyStr.contains completion_marker full_content then
    _ ← pack ag (Some completion_message)
             false (Some "attempt_completion") None false false;
    raise (Exn SystemExit "0")
  else
    match tool_results with
    | _ :: _ =>
        _ ← append_results py tool_results tool_names;
        mret Continue
    | [] =>
        if tool then
          h ← get_history;
          match last h with
          | Some m => mret (Return (RetMessage m))
          | None => raise (Exn IndexError "list index out of range")
          end
        else mret (Return (RetText full_content))
    end.

(** [conversation_with_tool] from the reply of [requests.post] on. A
    content that is [None] cannot be searched by the regular expressions. *)
Definition turn (py : python) (ag : agent) (reg : Registry.t W)
    (rsp : response) (tool : bool) : M step :=
  '(full_content, tool_calls_list) ← receive ag rsp;
  if fc_model ag && negb (bool_decide (tool_calls_list = [])) then
    native_turn py ag reg tool_calls_list
  else
    match full_content with
    | None => raise (Exn TypeError "expected string or bytes-like object")
    | Some full_content => xml_turn py ag reg full_content tool
    end.

Definition is_callable_attr (ag : agent) (n : string) : bool :=
  match getattr ag n with Some (Method _) => true | _ => false end.

Definition string_schema (descr : string) : pyval :=
  PDict [("type", PStr "string"); ("description", PStr descr)].

Definition object_schema (props : list (string * pyval)) (required : list string) : pyval :=
  PDict [("type", PStr "object"); ("properties", PDict props);
         ("required", PList (PStr <$> required))].

Definition builtin_tools_schema : list (string * string * pyval) :=
  [ ("ask_for_help", "请求其他Agent帮助",
     object_schema [("agent_id", string_schema "目标Agent的UUID或名称");
                    ("message", string_schema "请求内容")]
                   ["agent_id"; "message"]);
    ("list_agents", "列出所有可用的Agent及其UUID和名称", object_schema [] []);
    ("attempt_completion", "标记任务完成并退出",
     object_schema [("report_content", string_schema "汇报内容（可选）")] []) ].

(** The [tools] of a function-calling request: the permitted registry
    tools, then the built-in ones the agent has as callables. *)
Definition tools_schema (ag : agent) (reg : Registry.t W)
    : list (string * string * pyval) :=
  (Registry.get_all_tools_schema reg (uuid ag)
   ++ List.filter (λ b, is_callable_attr ag b.1.1) builtin_tools_schema)%list.

(** The user message of a call with [messages]: text alone, or text and
    images. *)
Definition user_message (messages : string) (images : list string) : message :=
  match images with
  | [] => Msg user messages
  | _ =>
      MsgParts user messages
        ((λ img, if PyStr.startswith img "http" then img
                 else "data:image/png;base64," +:+ img) <$> images)
  end.

(** The result of a call of [conversation_with_tool] that does not raise:
    the value returned, or nothing yet when the provider has not answered
    the last request. *)
Inductive outcome :=
  | Returned (v : retval)
  | Awaiting.

(** [conversation_with_tool] up to [requests.post]: the user message, if
    any, is appended and the request goes out. *)
Definition send (ag : agent) (reg : Registry.t W) (messages : option string)
    (images : list string) : M unit :=
  _ ← match messages with
      | Some m => if String.eqb m EmptyString then mret ()
                  else history_append (user_message m images)
      | None => mret ()
      end;
  post (if fc_model ag then Some (tools_schema ag reg) else None).

(** [Agent.conversation_with_tool(messages, tool, images)]. [transport]
    lists the replies of the provider to the requests to come, in order. *)
Fixpoint conversation_with_tool (py : python) (ag : agent) (reg : Registry.t W)
    (transport : list response) (messages : option string)
    (images : list string) (tool : bool) : M outcome :=
  _ ← send ag reg messages images;
  match transport with
  | [] => mret Awaiting
  | rsp :: rest =>
      s ← turn py ag reg rsp tool;
      match s with
      | Continue => conversation_with_tool py ag reg rest None [] true
      | Return v => mret (Returned v)
      end
  end.

(** *** Construction *)

Definition builtin_tools : list (string * string) :=
  [ ("ask_for_help",
     "请求其他Agent帮助，参数: agent_id(目标Agent的UUID或名称), message(请求内容)");
    ("list_agents", "列出所有可用的Agent及其UUID和名称");
    ("attempt_completion",
     "标记任务完成并退出，参数: report_content(汇报内容，可选)") ].

Definition tool_line (n descr : string) : string :=
  "- " +:+ n +:+ ": " +:+ descr +:+ newline.

Definition concat_strings (l : list string) : string :=
  foldr String.append EmptyString l.

Definition mem (x : string) (l : list string) : bool :=
  existsb (String.eqb x) l.

(** The tool listing the constructor appends to the prompt. *)
Definition tools_prompt (ag : agent) (reg : Registry.t W) : string :=
  let tools_info := Registry.get_all_tools_info reg (uuid ag) in
  let tools_list :=
    (tools_info.*1 ++ List.filter (is_callable_attr ag) builtin_tools.*1)%list in
  match tools_list with
  | [] => EmptyString
  | _ =>
      newline +:+ newline +:+ "你可以使用以下工具：" +:+ newline
      +:+ concat_strings ((λ ti, tool_line ti.1 ti.2.1) <$> tools_info)
      +:+ concat_strings
            ((λ b, tool_line b.1 b.2)
               <$> List.filter (λ b, mem b.1 tools_list && negb (mem b.1 tools_info.*1))
                               builtin_tools)
  end.

Definition uuid_suffix : string := ", 你的uuid ".

(** The content of the system message the constructor builds first. *)
Definition initial_prompt (ag : agent) (reg : Registry.t W) : string :=
  prompt ag +:+ tools_prompt ag reg +:+ uuid_suffix +:+ uuid ag.

(** [Agent.Connectivity]; [status_code] is the provider's answer to the
    probe. *)
Definition Connectivity (ag : agent) (status_code : Z) : M bool :=
  _ ← history_append (Msg user "你好");
  _ ← post None;
  _ ← set_history [Msg system (prompt ag)];
  mret (status_code =? 200)%Z.

(** The registration of the agent's uuid at the start of [__init__]. *)
Definition register_self (ag : agent) (reg : Registry.t W) : Registry.t W :=
  let agent_name :=
    if String.eqb (name ag) EmptyString then class_name ag else name ag in
  if negb (String.eqb agent_name EmptyString) && negb (String.eqb (uuid ag) EmptyString)
  then Registry.register_agent_uuid (uuid ag) agent_name reg
  else reg.

(** [Agent.__init__]: the registry after it, and the new instance's state
    or the [ConnectionError] of a failed probe. *)
Definition __init__ (ag : agent) (reg : Registry.t W) (status_code : Z) (w : W)
    : Registry.t W * (result unit * state) :=
  let reg' := register_self ag reg in
  let st0 := State [Msg system (initial_prompt ag reg')] false [] [] [] w in
  (reg',
   (ok ← Connectivity ag status_code;
    if ok : bool then mret ()
    else raise (Exn ConnectionError "请检查api_provider，model_name，api_key")) st0).

End Agent.

Arguments attr : clear implicits.
Arguments agent : clear implicits.
Arguments state : clear implicits.
Arguments M : clear implicits.

End Agent.

(** ** A strict reader for tag-and-text documents

    The scenarios below need a concrete XML parser in the place of
    [BeautifulSoup]. This one reads the fragment of XML made of open tags,
    close tags and text; a document outside the fragment (an invalid name, a
    tag left open, a close tag that matches nothing) has no root. *)

Module StrictXml.

Inductive token :=
  | TOpen (n : string)
  | TClose (n : string)
  | TText (s : string).

Inductive mode := InText | InOpen | InClose.

Definition is_name_start (c : ascii) : bool :=
  let n := nat_of_ascii c in
  ((65 <=? n) && (n <=? 90) || (97 <=? n) && (n <=? 122) || (n =? 95))%nat.

Definition is_name_char (c : ascii) : bool :=
  let n := nat_of_ascii c in
  is_name_start c || ((48 <=? n) && (n <=? 57) || (n =? 45) || (n =? 46))%nat.

Fixpoint all_chars (f : ascii → bool) (s : string) : bool :=
  match s with
  | EmptyString => true
  | String c s' => f c && all_chars f s'
  end.

Definition valid_name (s : string) : bool :=
  match s with
  | EmptyString => false
  | String c s' => is_name_start c && all_chars is_name_char s'
  end.

Definition flush (acc : string) : list token :=
  if String.eqb acc EmptyString then [] else [TText acc].

Fixpoint lex (m : mode) (acc : string) (s : string) : option (list token) :=
  match s with
  | EmptyString => match m with InText => Some (flush acc) | _ => None end
  | String c s' =>
      match m with
      | InText =>
          if Ascii.eqb c "<" then
            match s' with
            | String "/" s'' => (app (flush acc)) <$> lex InClose EmptyString s''
            | _ => (app (flush acc)) <$> lex InOpen EmptyString s'
            end
          else lex InText (acc +:+ PyStr.chr c) s'
      | InOpen =>
          if Ascii.eqb c ">" then
            if valid_name acc then (cons (TOpen acc)) <$> lex InText EmptyString s'
            else None
          else lex InOpen (acc +:+ PyStr.chr c) s'
      | InClose =>
          if Ascii.eqb c ">" then
            if valid_name acc then (cons (TClose acc)) <$> lex InText EmptyString s'
            else None
          else lex InClose (acc +:+ PyStr.chr c) s'
      end
  end.

(** The forest of a token list; [stack] holds, for each tag still open, its
    name and the siblings read before it. *)
Fixpoint build (ts : list token) (stack : list (string * list Xml.node))
    (top : list Xml.node) : option (list Xml.node) :=
  match ts with
  | [] => match stack with [] => Some top | _ => None end
  | TText s :: r => build r stack (top ++ [Xml.NText s])%list
  | TOpen n :: r => build r ((n, top) :: stack) []
  | TClose n :: r =>
      match stack with
      | (n', parent) :: stack' =>
          if String.eqb n n' then build r stack' (parent ++ [Xml.NTag n top])%list
          else None
      | [] => None
      end
  end.

Definition parse (s : string) : option (list Xml.node) :=
  ts ← lex InText EmptyString s; build ts [] [].

(** The first tag of the document: its name and its children. *)
Definition find (s : string) : option (string * list Xml.node) :=
  nodes ← parse s;
  head (omap (λ n, match n with
                   | Xml.NTag nm cs => Some (nm, cs)
                   | Xml.NText _ => None
                   end) nodes).

End StrictXml.

(** ** [Agent.list_agents] *)

Section Roster.
Context {Obj : Type}.

(** [getattr(agent, 'uuid', None)] and [getattr(agent, 'name', None)]. *)
Context (uuid_of name_of : Obj → option string).

(** The body of [for key, agent in agent_list.items()]. *)
Definition note_agent (unique_agents : list (string * (string * string)))
    (item : string * Obj) : list (string * (string * string)) :=
  match uuid_of item.2, name_of item.2 with
  | Some agent_uuid, Some agent_name =>
      if negb (String.eqb agent_uuid EmptyString)
         && negb (String.eqb agent_name EmptyString)
      then match PyDict.get agent_uuid unique_agents with
           | None => PyDict.set agent_uuid (agent_uuid, agent_name) unique_agents
           | Some _ => unique_agents
           end
      else unique_agents
  | _, _ => unique_agents
  end.

(** The dict [unique_agents] after the loop over the items of
    [agent_list], in their order. *)
Definition unique_agents (items : list (string * Obj))
    : list (string * (string * string)) :=
  foldl note_agent [] items.

(** [Agent.list_agents]. *)
Definition list_agents (items : list (string * Obj)) : string :=
  "可用的Agent列表：" +:+ Agent.newline
  +:+ PyStr.join Agent.newline
        ((λ info, "- " +:+ info.2 +:+ " (UUID: " +:+ info.1 +:+ ")")
           <$> PyDict.values (unique_agents items)).

End Roster.

(** ** The program of [main.py], and variations on it *)

Module Scenario.

Import Agent.

(** A Python runtime for the scenarios: ASCII texts, the strict reader
    above, a [json.loads] that knows the empty object, and a [str] that
    shows a string as it is. *)
Definition py : python := {|
  nonascii_word := λ _, false;
  json_loads := λ s, if String.eqb s "{}" then Ok (PDict [])
                     else Raise (Exn ValueError "Expecting value");
  str := λ v, match v with PStr s => s | _ => "<object>" end;
  soup_find := StrictXml.find
|}.

(** *** The binding of the arguments of a call

    The [TypeError]s of a call that does not fit the signature, for the
    shapes of signature the scenarios have: one parameter, with or without
    a default and with or without [**kwargs] after it, and a method whose
    parameters are [self] and [**kwargs]. Keywords are looked at first,
    then the number of positional arguments, then what is missing. *)

Definition was_were (n : nat) : string :=
  match n with 1%nat => "was" | _ => "were" end.

Definition missing_argument (f p : string) : exn :=
  Exn TypeError (f +:+ "() missing 1 required positional argument: '" +:+ p +:+ "'").

Definition unexpected_keyword (f k : string) : exn :=
  Exn TypeError (f +:+ "() got an unexpected keyword argument '" +:+ k +:+ "'").

Definition multiple_values (f p : string) : exn :=
  Exn TypeError (f +:+ "() got multiple values for argument '" +:+ p +:+ "'").

Definition too_many_positional (f takes : string) (given : nat) : exn :=
  Exn TypeError (f +:+ "() takes " +:+ takes +:+ " but " +:+ pretty given
                 +:+ " " +:+ was_were given +:+ " given").

(** The keywords of a call of [def f(p)] or [def f(p, **kw)], in their
    order: the value for [p], if any, and the others. *)
Fixpoint bind_keywords (f p : string) (var_keyword filled : bool)
    (kws : list (string * pyval)) : result (option pyval * list (string * pyval)) :=
  match kws with
  | [] => Ok (None, [])
  | (k, v) :: rest =>
      if String.eqb k p then
        if filled then Raise (multiple_values f p)
        else match bind_keywords f p var_keyword true rest with
             | Ok (_, others) => Ok (Some v, others)
             | Raise e => Raise e
             end
      else if var_keyword then
        match bind_keywords f p var_keyword filled rest with
        | Ok (x, others) => Ok (x, (k, v) :: others)
        | Raise e => Raise e
        end
      else Raise (unexpected_keyword f k)
  end.

(** A function of one parameter [p]: [body] gets the value bound to [p]
    ([None] when the default is used) and the other keywords. *)
Definition one_parameter (f p : string) (has_default var_keyword : bool)
    (body : option pyval → list (string * pyval) → unit → result pyval * unit)
    : call_args → unit → result pyval * unit :=
  λ a w,
    match bind_keywords f p var_keyword
            (match args_pos a with [] => false | _ => true end) (args_kw a) with
    | Raise e => (Raise e, w)
    | Ok (x, others) =>
        match args_pos a with
        | [] =>
            match x with
            | Some v => body (Some v) others w
            | None => if has_default then body None others w
                      else (Raise (missing_argument f p), w)
            end
        | [v] => body (Some v) others w
        | _ =>
            (Raise (too_many_positional f
                      (if has_default then "from 0 to 1 positional arguments"
                       else "1 positional argument")
                      (length (args_pos a))), w)
        end
    end.

(** A method [def m(self, **kwargs)], bound to its agent. *)
Definition method (f : string)
    (body : list (string * pyval) → unit → result pyval * unit)
    : call_args → unit → result pyval * unit :=
  λ a w,
    match args_pos a with
    | [] => body (args_kw a) w
    | _ => (Raise (too_many_positional f "1 positional argument"
                     (S (length (args_pos a)))), w)
    end.

(** [def get_time(xml=None): return "11:03"] *)
Definition get_time : callable unit :=
  Callable [MkParameter "xml" POSITIONAL_OR_KEYWORD true]
           (one_parameter "get_time" "xml" true false
              (λ _ _ w, (Ok (PStr "11:03"), w))).

Definition time_agent_uuid : string := "8841cd45eef54217bc8122cafebe5fd6".

(** The registry after the decorator of [get_time] has run. *)
Definition tool_registry : Registry.t unit :=
  Registry.register_tool
    (Registry.AllowList [time_agent_uuid; "time_agent"])
    "获取当前时间" (Some "get_time")
    (Some (object_schema [] [])) "get_time" get_time Registry.empty.

Definition kwargs_only : list parameter := [MkParameter "kwargs" VAR_KEYWORD false].

(** The uuid of [scheduling_agent] is drawn at start-up; here a sample. *)
Definition scheduling_agent_uuid : string := "0f1e2d3c4b5a69788796a5b4c3d2e1f0".

(** The items of [agent_list] once [main.py] is loaded, each agent by its
    uuid and its name: [scheduling_agent] is registered first. *)
Definition main_agent_list : list (string * (string * string)) :=
  [ (scheduling_agent_uuid, (scheduling_agent_uuid, "scheduling_agent"));
    ("scheduling_agent", (scheduling_agent_uuid, "scheduling_agent"));
    (time_agent_uuid, (time_agent_uuid, "time_agent"));
    ("time_agent", (time_agent_uuid, "time_agent")) ].

(** The tool methods class [Agent] defines. Of [ask_for_help] only the
    answer to a call with no usable argument is given; [list_agents] is
    that of the code, for the two agents of [main.py]. The other callables
    of the class ([Connectivity], [conversation_with_tool], [pack], [out])
    work on the agent itself, which a [callable] cannot do: they are not
    listed, and no scenario names them in a block. *)
Definition base_getattr (n : string) : option (attr unit) :=
  if String.eqb n "ask_for_help" then
    Some (Method (Callable kwargs_only
                    (method "Agent.ask_for_help"
                       (λ _ w, (Ok (PDict [("role", PStr "system");
                                           ("content",
                                            PStr "<ask_for_help> 缺少 agent_id 字段")]),
                                w)))))
  else if String.eqb n "list_agents" then
    Some (Method (Callable kwargs_only
                    (method "Agent.list_agents"
                       (λ _ w, (Ok (PStr (list_agents (λ o, Some o.1) (λ o, Some o.2)
                                            main_agent_list)), w)))))
  else if String.eqb n "attempt_completion" then
    Some (Method (Callable kwargs_only
                    (method "Agent.attempt_completion"
                       (λ _ w, (Raise (Exn SystemExit "0"), w)))))
  else if mem n ["uuid"; "name"; "prompt"; "history"; "stream"; "stream_run";
                 "api_key"; "api_provider"; "model_name"; "headers"]
  then Some Data
  else None.

(** [time_agent]: no [fc_model], so the inline-tag path. *)
Definition time_agent : agent unit := {|
  uuid := time_agent_uuid;
  name := "time_agent";
  class_name := "time_agent";
  prompt := "你是一个名为汤圆Agent的AGI的子agent名为时间管理者， 你可以通过工具获取时间";
  fc_model := false;
  stream := true;
  getattr := base_getattr
|}.

(** [scheduling_agent]: [fc_model = True]. *)
Definition scheduling_agent : agent unit := {|
  uuid := scheduling_agent_uuid;
  name := "scheduling_agent";
  class_name := "scheduling_agent";
  prompt := "你是一个名为汤圆Agent的AGI";
  fc_model := true;
  stream := true;
  getattr := base_getattr
|}.

(** The state of an agent after construction. *)
Definition fresh (ag : agent unit) : state unit :=
  State [Msg system (prompt ag)] false [] [] [] ().

(** A streamed reply that is one chunk of text. *)
Definition says (text : string) : response :=
  Response [Chunk [] text None] None text.

(** A streamed reply with one native call and a text. *)
Definition calls_and_says (c : fragment) (text : string) : response :=
  Response [Chunk [c] text None] None text.

(** A tool [def read_file(path)] that fails when it runs. *)
Definition failing_tool : callable unit :=
  Callable [MkParameter "path" POSITIONAL_OR_KEYWORD false]
           (one_parameter "read_file" "path" false false
              (λ _ _ w, (Raise (Exn ValueError "no such file"), w))).

(** [tool_registry] with [failing_tool] registered for every agent as
    [read_file]. *)
Definition registry_with_failing_tool : Registry.t unit :=
  Registry.register_tool Registry.AllowNone "读取文件" (Some "read_file") None
    "read_file" failing_tool tool_registry.

(** A tool [def search(query, **options): return [query, options]]. *)
Definition search : callable unit :=
  Callable [MkParameter "query" POSITIONAL_OR_KEYWORD false;
            MkParameter "options" VAR_KEYWORD false]
           (one_parameter "search" "query" false true
              (λ query options w,
                 (Ok (PList [default PNone query; PDict options]), w))).

(** A tool [def echo(text): return text]. *)
Definition echo : callable unit :=
  Callable [MkParameter "text" POSITIONAL_OR_KEYWORD false]
           (one_parameter "echo" "text" false false
              (λ text _ w, (Ok (default PNone text), w))).

End Scenario.

(** * Properties *)

(** ** The registry *)

Section RegistryFacts.
Context {W : Type}.
Implicit Types (r : Registry.t W) (info : Registry.tool_info W).

Lemma get_set_eq {V} (k : string) (v : V) d :
  PyDict.get k (PyDict.set k v d) = Some v.
Proof.
  induction d as [|[k' v'] d IH]; simpl.
  - by rewrite String.eqb_refl.
  - destruct (String.eqb k k') eqn:E; simpl.
    + by rewrite String.eqb_refl.
    + by rewrite E.
Qed.

(** After [register_tool], the tool is found under its name with the
    allow-list normalised: [None], a one-element list, or the list. *)
Lemma register_tool_lookup allowed descr nm params func_name func r :
  ∃ info,
    Registry.get_tool_info
      (Registry.register_tool allowed descr nm params func_name func r)
      (Registry.name info) = Some info
    ∧ Registry.allowed_agents info = Registry.permitted_of allowed
    ∧ Registry.function info = func.
Proof.
  unfold Registry.register_tool, Registry.get_tool_info. simpl.
  match goal with |- context [PyDict.set ?k ?v _] => exists v end.
  simpl. by rewrite get_set_eq.
Qed.

(** C5. For a tool of the registry: with an allow-list, [check_permission]
    is true exactly when the canonical name of the agent key is in the
    list; with no allow-list it is true for every key. The canonical name is
    the name the uuid map gives for the key, or the key itself when the map
    has none. *)
Theorem check_permission_allow_list r (agent_key tool_name : string) info :
  Registry.get_tool_info r tool_name = Some info →
  match Registry.allowed_agents info with
  | Some allowed =>
      Registry.check_permission r agent_key tool_name = true
      ↔ Registry.canonical_name r agent_key ∈ allowed
  | None => Registry.check_permission r agent_key tool_name = true
  end
  ∧ Registry.canonical_name r agent_key
    = default agent_key (Registry._uuid_to_name r !! agent_key).
Proof.
  unfold Registry.get_tool_info, Registry.check_permission. intros ->.
  split.
  - destruct (Registry.allowed_agents info) as [allowed|]; [|done].
    by rewrite bool_decide_eq_true.
  - unfold Registry.canonical_name.
    by destruct (Registry._uuid_to_name r !! agent_key).
Qed.

End RegistryFacts.

(** The registry of [main.py]: [get_time] is for [time_agent], by uuid or
    by name, and for nobody else. *)
Lemma check_permission_allow_list_witness :
  (Registry.check_permission Scenario.tool_registry "time_agent" "get_time" = true
   ↔ "time_agent" ∈ [Scenario.time_agent_uuid; "time_agent"])
  ∧ Registry.canonical_name Scenario.tool_registry "time_agent" = "time_agent".
Proof.
  exact (check_permission_allow_list Scenario.tool_registry "time_agent" "get_time"
           _ eq_refl).
Defined.

(** ** The directory *)

Section DirectoryFacts.
Context {Obj : Type}.

(** The directory right after one registration: both keys hold the
    address of the new object. *)
Lemma register_agent_lookup (U N : string) (cls : Directory.class Obj)
    (d d' : Directory.t Obj) (a : Directory.addr) :
  Directory.register_agent U N cls d = Ok (a, d') →
  Directory.agent_list d' !! U = Some a
  ∧ Directory.agent_list d' !! N = Some a
  ∧ a = length (Directory.store d)
  ∧ ∃ inst, cls U N = Ok inst ∧ Directory.store d' !! a = Some inst.
Proof.
  unfold Directory.register_agent, Directory.alloc.
  destruct (cls U N) as [inst|e]; [|done]. simpl.
  intros [= <- <-]. simpl.
  split; [|split; [by rewrite lookup_insert_eq|split; [done|]]].
  - rewrite lookup_insert. case_decide; [done|]. by rewrite lookup_insert_eq.
  - exists inst. split; [done|]. by rewrite lookup_app_r, Nat.sub_diag.
Qed.

(** A registration leaves the other keys and the stored objects alone. *)
Lemma register_agent_frame (U N : string) (cls : Directory.class Obj)
    (d d' : Directory.t Obj) (a : Directory.addr) :
  Directory.register_agent U N cls d = Ok (a, d') →
  (∀ k, k ≠ U → k ≠ N → Directory.agent_list d' !! k = Directory.agent_list d !! k)
  ∧ (∀ b o, Directory.store d !! b = Some o → Directory.store d' !! b = Some o).
Proof.
  unfold Directory.register_agent, Directory.alloc.
  destruct (cls U N) as [inst|e]; [|done]. simpl.
  intros [= <- <-]. simpl. split.
  - intros k HU HN. by rewrite !lookup_insert_ne.
  - intros b o Hb. by apply lookup_app_l_Some.
Qed.

Lemma register_agents_frame (regs : list (string * string * Directory.class Obj))
    (d d' : Directory.t Obj) (l : list Directory.addr) :
  Directory.register_agents regs d = Ok (l, d') →
  (∀ k, (∀ r, r ∈ regs → k ≠ r.1.1 ∧ k ≠ r.1.2) →
        Directory.agent_list d' !! k = Directory.agent_list d !! k)
  ∧ (∀ b o, Directory.store d !! b = Some o → Directory.store d' !! b = Some o).
Proof.
  revert d d' l. induction regs as [|[[U N] cls] regs IH]; intros d d' l; simpl.
  - by intros [= <- <-].
  - destruct (Directory.register_agent U N cls d) as [[a d1]|e] eqn:E1; [|done].
    destruct (Directory.register_agents regs d1) as [[l1 d2]|e] eqn:E2; [|done].
    intros [= <- <-].
    destruct (register_agent_frame _ _ _ _ _ _ E1) as [Hk1 Hs1].
    destruct (IH _ _ _ E2) as [Hk2 Hs2]. split.
    + intros k Hk. rewrite Hk2 by (intros r Hr; apply Hk; by right).
      destruct (Hk (U, N, cls)) as [HU HN]; [by left|]. by apply Hk1.
    + intros b o Hb. by apply Hs2, Hs1.
Qed.

(** C9, amended. After the decorators of a program have run, every agent
    registered under a pair (U, N) is found under [U] and under [N], and both
    lookups give the one object its constructor returned, provided no other
    registration of the program uses [U] or [N] as one of its keys. (For a
    single registration there is no other, so right after
    [register_agent(U, N)] both keys hold the new instance.) *)
Theorem register_agent_dual_key (regs : list (string * string * Directory.class Obj))
    (d d' : Directory.t Obj) (l : list Directory.addr) :
  Directory.register_agents regs d = Ok (l, d') →
  ∀ i U N cls,
    regs !! i = Some (U, N, cls) →
    (∀ j r, regs !! j = Some r → j ≠ i →
            r.1.1 ≠ U ∧ r.1.1 ≠ N ∧ r.1.2 ≠ U ∧ r.1.2 ≠ N) →
    ∃ a inst,
      l !! i = Some a
      ∧ cls U N = Ok inst
      ∧ Directory.agent_list d' !! U = Some a
      ∧ Directory.agent_list d' !! N = Some a
      ∧ Directory.store d' !! a = Some inst
      ∧ Directory.lookup_instance d' U = Some inst
      ∧ Directory.lookup_instance d' N = Some inst.
Proof.
  revert d d' l. induction regs as [|[[U0 N0] cls0] regs IH]; intros d d' l; simpl;
    [by intros _ i U N cls ?|].
  destruct (Directory.register_agent U0 N0 cls0 d) as [[a0 d1]|e] eqn:E1; [|done].
  destruct (Directory.register_agents regs d1) as [[l1 d2]|e] eqn:E2; [|done].
  intros [= <- <-] i U N cls Hi Hother.
  destruct i as [|i]; simpl in Hi.
  - injection Hi as -> -> ->.
    destruct (register_agent_lookup _ _ _ _ _ _ E1) as (HU & HN & _ & inst & Hc & Hst).
    destruct (register_agents_frame _ _ _ _ E2) as [Hk Hs].
    assert (∀ r, r ∈ regs → U ≠ r.1.1 ∧ U ≠ r.1.2) as HfU.
    { intros r [j Hj]%list_elem_of_lookup.
      destruct (Hother (S j) r Hj ltac:(done)) as (? & ? & ? & ?). done. }
    assert (∀ r, r ∈ regs → N ≠ r.1.1 ∧ N ≠ r.1.2) as HfN.
    { intros r [j Hj]%list_elem_of_lookup.
      destruct (Hother (S j) r Hj ltac:(done)) as (? & ? & ? & ?). done. }
    exists a0, inst. unfold Directory.lookup_instance.
    rewrite (Hk U HfU), (Hk N HfN), HU, HN. simpl.
    rewrite (Hs _ _ Hst). done.
  - destruct (IH _ _ _ E2 i U N cls Hi) as (a & inst & Hl & ?).
    { intros j r Hj Hne. apply (Hother (S j) r Hj). congruence. }
    exists a, inst. done.
Qed.

End DirectoryFacts.

(** The two decorators of [main.py], with constructors that keep the two
    class attributes, in a directory that holds one agent already. *)
Lemma register_agent_dual_key_witness :
  let cls : Directory.class (string * string) := λ u n, Ok (u, n) in
  let d := Directory.Dir [("U", "N")] (<["N" := 0]> (<["U" := 0]> ∅)) in
  ∃ l d',
    Directory.register_agents
      [("0f1e2d3c4b5a69788796a5b4c3d2e1f0", "scheduling_agent", cls);
       ("8841cd45eef54217bc8122cafebe5fd6", "time_agent", cls)] d
    = Ok (l, d')
    ∧ ∃ a,
        Directory.agent_list d' !! "0f1e2d3c4b5a69788796a5b4c3d2e1f0" = Some a
        ∧ Directory.agent_list d' !! "scheduling_agent" = Some a
        ∧ Directory.lookup_instance d' "scheduling_agent"
          = Some ("0f1e2d3c4b5a69788796a5b4c3d2e1f0", "scheduling_agent").
Proof.
  intros cls d. eexists _, _. split; [reflexivity|].
  destruct (register_agent_dual_key
              [("0f1e2d3c4b5a69788796a5b4c3d2e1f0", "scheduling_agent", cls);
               ("8841cd45eef54217bc8122cafebe5fd6", "time_agent", cls)] d _ _ eq_refl
              0 "0f1e2d3c4b5a69788796a5b4c3d2e1f0" "scheduling_agent" cls eq_refl)
    as (a & inst & _ & Hc & HU & HN & _ & _ & Hl).
  - intros [|[|j]] r Hj Hne; [done| |by destruct j].
    injection Hj as <-. simpl. done.
  - injection Hc as <-. exists a. exact (conj HU (conj HN Hl)).
Defined.

(** A later registration that takes the name of an earlier agent as its
    uuid: [register_agent("x", "a")], then [register_agent("a", "b")]. The
    first agent is still found under its uuid ["x"], but its name ["a"] now
    gives the second agent, another object. *)
Lemma register_agent_reuses_a_key :
  let cls : Directory.class (string * string) := λ u n, Ok (u, n) in
  ∃ l d',
    Directory.register_agents [("x", "a", cls); ("a", "b", cls)] Directory.empty
    = Ok (l, d')
    ∧ Directory.agent_list d' !! "x" = Some 0
    ∧ Directory.agent_list d' !! "a" = Some 1
    ∧ Directory.lookup_instance d' "x" = Some ("x", "a")
    ∧ Directory.lookup_instance d' "a" = Some ("a", "b").
Proof. intros cls. eexists _, _. repeat split. Qed.

(** ** Construction *)

Section ConstructionFacts.
Context {W : Type}.
Import Agent.
Implicit Types (ag : agent W) (reg : Registry.t W) (st : state W).

Lemma length_append (a b : string) :
  String.length (a +:+ b) = String.length a + String.length b.
Proof. induction a as [|c a IH]; simpl; [done | by rewrite IH]. Qed.

(** Whatever the answer to the probe, [Connectivity] leaves one system
    message, the prompt attribute, and has sent the history with the
    greeting. *)
Lemma Connectivity_resets_history ag status st :
  Connectivity ag status st
  = (Ok (status =? 200)%Z,
     State [Msg system (prompt ag)] (stream_run st) (outputs st) (calls st)
           (requests st ++ [Request (history st ++ [Msg user "你好"]) None])
           (world st)).
Proof. reflexivity. Qed.

(** C10. When the constructor succeeds (the probe was answered with status
    200), the history is one system message whose content is the prompt
    attribute alone. The message the constructor had built, the prompt
    followed by the tool listing and the uuid suffix, was sent with the
    probe and is strictly longer: it is not in the history any more. *)
Theorem init_history_is_bare_prompt ag reg status w reg' st :
  __init__ ag reg status w = (reg', (Ok (), st)) →
  history st = [Msg system (prompt ag)]
  ∧ status = 200%Z
  ∧ requests st
    = [Request [Msg system (prompt ag +:+ tools_prompt ag reg' +:+ uuid_suffix
                            +:+ uuid ag);
                Msg user "你好"] None]
  ∧ String.length (prompt ag)
    < String.length (prompt ag +:+ tools_prompt ag reg' +:+ uuid_suffix +:+ uuid ag).
Proof.
  unfold __init__. intros [= <- H].
  unfold mbind, M_bind in H. rewrite Connectivity_resets_history in H.
  destruct (status =? 200)%Z eqn:E; [|done].
  injection H as <-. simpl.
  repeat split.
  - by apply Z.eqb_eq.
  - rewrite !length_append. simpl. lia.
Qed.

End ConstructionFacts.

(** [time_agent] built against the registry of [main.py], the probe
    answered with 200. *)
Lemma init_history_is_bare_prompt_witness :
  Agent.history
    (Agent.__init__ Scenario.time_agent Scenario.tool_registry 200 ()).2.2
  = [Agent.Msg Agent.system (Agent.prompt Scenario.time_agent)].
Proof.
  exact (proj1 (init_history_is_bare_prompt
                  Scenario.time_agent Scenario.tool_registry 200 ()
                  (Agent.__init__ Scenario.time_agent Scenario.tool_registry 200 ()).1
                  (Agent.__init__ Scenario.time_agent Scenario.tool_registry 200 ()).2.2
                  eq_refl)).
Defined.

(** ** The native-call accumulator *)

Section AccumulatorFacts.
Context {W : Type}.
Import Agent.

(** On the native path a tool that raises an [Exception], or arguments
    that [json.loads] rejects, give a result whose content is the error
    text; nothing is raised. *)
Lemma native_dispatch_json_error (py : python) (ag : agent W) reg tc f e st :
  find_tool ag reg (call_name tc) = Some f →
  json_loads py (call_arguments tc) = Raise e →
  is_Exception e = true →
  native_dispatch py ag reg tc st
  = (Ok (NativeResult (call_id tc) (call_name tc)
           (PStr ("执行工具 " +:+ call_name tc +:+ " 时出错: " +:+ exn_str e))), st).
Proof.
  intros Hf Hj He. unfold native_dispatch, try_except. rewrite Hf.
  unfold mbind, M_bind. rewrite Hj. unfold raise. by rewrite He.
Qed.

(** C7, amended. With [l] the entries accumulated so far:
    - a fragment whose index is the number of entries (the next index in
      the order 0, 1, 2, ...) and that names its function appends a new
      entry with its id, its name and its arguments (or the empty string);
    - a fragment whose index is that of an existing entry appends its
      arguments to the buffer of that entry and changes nothing else;
    - the two fragments of index 0 with arguments ["a] and [":1}] give one
      entry whose buffer is ["a":1}];
    - the buffer is a string until dispatch: there it is given to
      [json.loads], and a buffer that does not parse becomes the error text
      of that call's result. *)
Theorem accumulate_in_index_order (l : list tool_call) :
  (∀ c f n,
     frag_index c = Some (Z.of_nat (length l)) →
     frag_function c = Some f → frag_name f = Some n →
     accumulate l c
     = Ok (l ++ [ToolCall (frag_id c) n (default EmptyString (frag_arguments f))]))
  ∧ (∀ c f a i,
       frag_index c = Some (Z.of_nat i) → i < length l →
       frag_function c = Some f → frag_arguments f = Some a →
       accumulate l c = Ok (alter (extend a) i l))
  ∧ (∀ id n,
       accumulate_all []
         [Fragment (Some 0%Z) id
            (Some (FragmentFunction (Some n) (Some (PyStr.dquote +:+ "a"))));
          Fragment (Some 0%Z) None
            (Some (FragmentFunction None (Some (PyStr.dquote +:+ ":1}"))))]
       = Ok [ToolCall id n (PyStr.dquote +:+ "a" +:+ PyStr.dquote +:+ ":1}")])
  ∧ (∀ (py : python) (ag : agent W) reg tc f e st,
       find_tool ag reg (call_name tc) = Some f →
       json_loads py (call_arguments tc) = Raise e →
       is_Exception e = true →
       native_dispatch py ag reg tc st
       = (Ok (NativeResult (call_id tc) (call_name tc)
                (PStr ("执行工具 " +:+ call_name tc +:+ " 时出错: " +:+ exn_str e))),
          st)).
Proof.
  split; [|split; [|split]].
  - intros c f n Hi Hf Hn. unfold accumulate. rewrite Hi, Hf, Hn.
    by rewrite Z.leb_refl.
  - intros c f a i Hi Hlt Hf Ha. unfold accumulate. rewrite Hi, Hf, Ha.
    assert ((Z.of_nat (length l) <=? Z.of_nat i)%Z = false) as ->
      by (apply Z.leb_gt; lia).
    assert ((Z.of_nat i <? 0)%Z = false) as Hneg by (apply Z.ltb_ge; lia).
    rewrite Hneg. cbv zeta. by rewrite Hneg, Nat2Z.id.
  - reflexivity.
  - intros py ag reg tc f e st Hf Hj He. by apply (native_dispatch_json_error py ag reg tc f).
Qed.

End AccumulatorFacts.

(** A stream that numbers its first call 1: the second fragment carries
    the index already seen, and yet it starts a second entry instead of
    extending the buffer of the first. *)
Lemma accumulate_seen_index_starts_new_entry :
  let frags :=
    [Agent.Fragment (Some 1%Z) (Some "call_a")
       (Some (Agent.FragmentFunction (Some "f") (Some "x")));
     Agent.Fragment (Some 1%Z) None
       (Some (Agent.FragmentFunction (Some "f") (Some "y")))] in
  Agent.accumulate_all [] frags
  = Ok [Agent.ToolCall (Some "call_a") "f" "x"; Agent.ToolCall None "f" "y"]
  ∧ Agent.accumulate_all [] frags ≠ Ok [Agent.ToolCall (Some "call_a") "f" "xy"].
Proof. split; [reflexivity | discriminate]. Qed.

(** The stream of the example, against the agent and registry of
    [main.py]: one entry, whose buffer is not JSON and is reported as such
    when the call is dispatched. *)
Lemma accumulate_in_index_order_witness :
  Agent.accumulate_all []
    [Agent.Fragment (Some 0%Z) (Some "call_0")
       (Some (Agent.FragmentFunction (Some "get_time")
                (Some (PyStr.dquote +:+ "a"))));
     Agent.Fragment (Some 0%Z) None
       (Some (Agent.FragmentFunction None (Some (PyStr.dquote +:+ ":1}"))))]
  = Ok [Agent.ToolCall (Some "call_0") "get_time"
          (PyStr.dquote +:+ "a" +:+ PyStr.dquote +:+ ":1}")]
  ∧ Agent.accumulate [Agent.ToolCall (Some "call_0") "get_time" "{"]
      (Agent.Fragment (Some 0%Z) None
         (Some (Agent.FragmentFunction None (Some "}"))))
    = Ok [Agent.ToolCall (Some "call_0") "get_time" "{}"]
  ∧ Agent.accumulate [Agent.ToolCall (Some "call_0") "get_time" "{}"]
      (Agent.Fragment (Some 1%Z) (Some "call_1")
         (Some (Agent.FragmentFunction (Some "list_agents") None)))
    = Ok [Agent.ToolCall (Some "call_0") "get_time" "{}";
          Agent.ToolCall (Some "call_1") "list_agents" EmptyString].
Proof.
  split; [|split].
  - exact (proj1 (proj2 (proj2 (accumulate_in_index_order (W := unit) [])))
             (Some "call_0") "get_time").
  - exact (proj1 (proj2 (accumulate_in_index_order (W := unit)
                           [Agent.ToolCall (Some "call_0") "get_time" "{"]))
             (Agent.Fragment (Some 0%Z) None
                (Some (Agent.FragmentFunction None (Some "}"))))
             _ "}" 0 eq_refl ltac:(simpl; lia) eq_refl eq_refl).
  - exact (proj1 (accumulate_in_index_order (W := unit)
                    [Agent.ToolCall (Some "call_0") "get_time" "{}"])
             (Agent.Fragment (Some 1%Z) (Some "call_1")
                (Some (Agent.FragmentFunction (Some "list_agents") None)))
             _ "list_agents" eq_refl eq_refl eq_refl).
Defined.

(** ** The loop *)

Section LoopFacts.
Context {W : Type}.
Import Agent.
Implicit Types (py : python) (ag : agent W) (reg : Registry.t W) (st : state W).

(** *** What a computation leaves untouched *)

Section Keeps.
Context {X : Type} (f : state W → X).

Lemma keeps_ret {A} (a : A) : keeps f (mret a : M W A).
Proof. done. Qed.

Lemma keeps_raise {A} e : keeps f (raise e : M W A).
Proof. done. Qed.

Lemma keeps_bind {A B} (m : M W A) (k : A → M W B) :
  keeps f m → (∀ a, keeps f (k a)) → keeps f (m ≫= k).
Proof.
  intros Hm Hk st. unfold mbind, M_bind. specialize (Hm st).
  destruct (m st) as [[a|e] st']; simpl in *; [|done].
  by rewrite Hk.
Qed.

Lemma keeps_try_except {A} (m : M W A) c h :
  keeps f m → (∀ e, keeps f (h e)) → keeps f (try_except m c h).
Proof.
  intros Hm Hh st. unfold try_except. specialize (Hm st).
  destruct (m st) as [[a|e] st']; simpl in *; [done|].
  destruct (c e); simpl; [|done]. by rewrite Hh.
Qed.

End Keeps.

(** The operations on the state, one component at a time. *)
Ltac keeps_op :=
  solve [ intros ?; reflexivity
        | intros ?; unfold call;
          match goal with |- context [run ?g ?a ?w] => by destruct (run g a w) end ].

Ltac solve_keeps :=
  repeat first
    [ assumption
    | apply keeps_bind; [|intros ?]
    | apply keeps_try_except; [|intros ?]
    | apply keeps_ret
    | apply keeps_raise
    | match goal with
      | H : ∀ _, keeps _ _ |- _ => apply H
      | H : ∀ _ _, keeps _ _ |- _ => apply H
      | |- keeps _ (match ?x with _ => _ end) => destruct x
      end
    | keeps_op ].

(** Reading a reply changes neither the history nor the requests, and
    calls no tool. *)
Lemma receive_stream_keeps {X} (f : state W → X) ag chunks s l :
  keeps f (set_stream_run false : M W unit) →
  (∀ o, keeps f (emit o : M W unit)) →
  keeps f (receive_stream ag chunks s l).
Proof.
  intros H1 H2. revert s l.
  induction chunks as [|ch chunks IH]; intros s l; simpl; [done|].
  unfold report_usage, pack. solve_keeps.
Qed.

Lemma receive_keeps {X} (f : state W → X) ag rsp :
  (∀ b, keeps f (set_stream_run b : M W unit)) →
  (∀ o, keeps f (emit o : M W unit)) →
  keeps f (receive ag rsp).
Proof.
  intros H1 H2. unfold receive.
  apply keeps_bind; [done|intros _].
  destruct (stream ag).
  - apply keeps_bind; [by apply receive_stream_keeps|]. by intros [].
  - unfold receive_whole, report_usage, pack. solve_keeps.
Qed.

Lemma receive_history ag rsp st : history (receive ag rsp st).2 = history st.
Proof. by apply (receive_keeps history). Qed.

Lemma receive_requests ag rsp st : requests (receive ag rsp st).2 = requests st.
Proof. by apply (receive_keeps requests). Qed.

Lemma receive_calls ag rsp st : calls (receive ag rsp st).2 = calls st.
Proof. by apply (receive_keeps calls). Qed.

(** The two dispatch loops send no request. *)
Lemma xml_loop_silent py ag reg blocks rs ns :
  keeps requests (xml_loop py ag reg blocks rs ns).
Proof.
  revert rs ns. induction blocks as [|b blocks IH]; intros rs ns; simpl; [done|].
  unfold tool_not_found, get_all_available_tools, invoke, announce, pack.
  solve_keeps.
Qed.

Lemma append_results_silent py rs ns :
  keeps requests (append_results py rs ns : M W unit).
Proof.
  revert ns. induction rs as [|r rs IH]; intros [|n ns]; simpl; try done.
  solve_keeps.
Qed.

Lemma native_loop_silent py ag reg tcs rs :
  keeps requests (native_loop py ag reg tcs rs).
Proof.
  revert rs. induction tcs as [|tc tcs IH]; intros rs; simpl; [done|].
  unfold native_dispatch, call_with_mapping, pack. solve_keeps.
Qed.

Lemma append_native_results_silent rs :
  keeps requests (append_native_results rs : M W unit).
Proof. induction rs as [|[]]; simpl; try done. solve_keeps. Qed.

(** A turn sends nothing: the next request, if any, is that of the
    recursive call. *)
Lemma turn_silent py ag reg rsp tool : keeps requests (turn py ag reg rsp tool).
Proof.
  unfold turn, native_turn, xml_turn, pack.
  pose proof (receive_keeps requests ag rsp) as Hr.
  pose proof (xml_loop_silent py ag reg) as Hx.
  pose proof (append_results_silent py) as Ha.
  pose proof (native_loop_silent py ag reg) as Hn.
  pose proof append_native_results_silent as Hb.
  apply keeps_bind; [by apply Hr|intros [full l]].
  destruct (fc_model ag && negb (bool_decide (l = []))).
  - solve_keeps.
  - destruct full as [text|]; [|done].
    apply keeps_bind; [apply Hx|intros [rs ns]].
    destruct (PyStr.contains completion_marker text); [solve_keeps|].
    destruct rs; [|solve_keeps].
    destruct tool; solve_keeps.
Qed.

(** *** The loop, one reply at a time *)

Lemma send_ok ag reg messages images st :
  (send ag reg messages images st).1 = Ok ().
Proof.
  unfold send, mbind, M_bind.
  destruct messages as [m|]; simpl; [destruct (String.eqb m EmptyString)|]; done.
Qed.

Lemma send_requests ag reg messages images st :
  requests (send ag reg messages images st).2
  = requests st
    ++ [Request (history (send ag reg messages images st).2)
                (if fc_model ag then Some (tools_schema ag reg) else None)].
Proof.
  unfold send, mbind, M_bind.
  destruct messages as [m|]; simpl; [destruct (String.eqb m EmptyString)|]; done.
Qed.

(** The first reply of the transport is handled by [turn] on the state
    [send] leaves; the recursive call gets the other replies. *)
Lemma conversation_step py ag reg rsp rest messages images tool st :
  conversation_with_tool py ag reg (rsp :: rest) messages images tool st
  = match turn py ag reg rsp tool (send ag reg messages images st).2 with
    | (Ok Continue, st') => conversation_with_tool py ag reg rest None [] true st'
    | (Ok (Return v), st') => (Ok (Returned v), st')
    | (Raise e, st') => (Raise e, st')
    end.
Proof.
  simpl. unfold mbind at 1. unfold M_bind at 1.
  pose proof (send_ok ag reg messages images st) as Hs.
  destruct (send ag reg messages images st) as [[[]|e] st0]; simpl in *; [|done].
  unfold mbind at 1. unfold M_bind at 1.
  by destruct (turn py ag reg rsp tool st0) as [[[|v]|e] st'].
Qed.

(** A turn whose reply is handled on the inline-tag path. *)
Lemma turn_inline py ag reg rsp tool st text l st1 :
  receive ag rsp st = (Ok (Some text, l), st1) →
  fc_model ag && negb (bool_decide (l = [])) = false →
  turn py ag reg rsp tool st = xml_turn py ag reg text tool st1.
Proof.
  intros Hr Hfc. unfold turn, mbind at 1, M_bind at 1. by rewrite Hr, Hfc.
Qed.

(** The hard stop of the inline-tag path: once the blocks are processed,
    the marker in the text ends the turn with [SystemExit], whatever the
    blocks produced. *)
Lemma xml_turn_hard_stop py ag reg text tool st rs ns st2 :
  xml_loop py ag reg (Xml.xml_blocks (nonascii_word py) text) [] [] st = (Ok (rs, ns), st2) →
  PyStr.contains completion_marker text = true →
  xml_turn py ag reg text tool st
  = (Raise (Exn SystemExit "0"),
     State (history st2) (stream_run st2)
           (outputs st2 ++ [Out (Message (Some completion_message) (uuid ag) (name ag) false)])
           (calls st2) (requests st2) (world st2)).
Proof.
  intros Hl Hm. unfold xml_turn, mbind at 1, M_bind at 1. by rewrite Hl, Hm.
Qed.



(** *** The block loop *)

(** The blocks are processed from left to right, the two lists threaded
    through; an exception in a block ends the loop there. *)
Lemma xml_loop_app py ag reg pre blocks rs ns st :
  xml_loop py ag reg (pre ++ blocks) rs ns st
  = match xml_loop py ag reg pre rs ns st with
    | (Ok (rs', ns'), st') => xml_loop py ag reg blocks rs' ns' st'
    | (Raise e, st') => (Raise e, st')
    end.
Proof.
  revert rs ns st. induction pre as [|b pre IH]; intros rs ns st; [done|].
  simpl. destruct (soup_find py b) as [[tool_name children]|]; [|done].
  destruct (find_tool ag reg tool_name) as [f|].
  - unfold mbind, M_bind, announce, emit, pack. simpl.
    match goal with |- context [invoke ?a ?b ?c ?d ?s] =>
      destruct (invoke a b c d s) as [[v|e] st'] end; [apply IH | done].
  - unfold mbind, M_bind.
    destruct (tool_not_found ag tool_name st) as [[v|e] st']; [apply IH | done].
Qed.

(** A block with no root raises [ValueError] on the spot. *)
Lemma xml_loop_empty_root py ag reg block rest rs ns st :
  soup_find py block = None →
  xml_loop py ag reg (block :: rest) rs ns st = (Raise (Exn ValueError "空 XML"), st).
Proof. intros H. simpl. by rewrite H. Qed.

(** An exception of the block loop is the exception of the turn. *)
Lemma xml_turn_raise py ag reg text tool st e st' :
  xml_loop py ag reg (Xml.xml_blocks (nonascii_word py) text) [] [] st = (Raise e, st') →
  xml_turn py ag reg text tool st = (Raise e, st').
Proof. intros H. unfold xml_turn, mbind at 1, M_bind at 1. by rewrite H. Qed.

(** C4, amended. A block whose parsed root is [None] raises
    [ValueError("空 XML")], and nothing catches it: the blocks before it
    have been processed, the blocks after it are not, no error entry is
    recorded for it, and the exception leaves the loop and the turn. *)
Theorem empty_root_aborts_the_turn py ag reg pre block rest rs ns st text tool :
  soup_find py block = None →
  xml_loop py ag reg (pre ++ block :: rest) rs ns st
  = match xml_loop py ag reg pre rs ns st with
    | (Ok _, st') => (Raise (Exn ValueError "空 XML"), st')
    | (Raise e, st') => (Raise e, st')
    end
  ∧ (Xml.xml_blocks (nonascii_word py) text = pre ++ block :: rest →
     ∃ e st', xml_turn py ag reg text tool st = (Raise e, st')
              ∧ (pre = [] → e = Exn ValueError "空 XML" ∧ st' = st)).
Proof.
  intros Hroot. split.
  - rewrite xml_loop_app.
    destruct (xml_loop py ag reg pre rs ns st) as [[[rs' ns']|e] st']; [|done].
    by apply xml_loop_empty_root.
  - intros Hb.
    destruct (xml_loop py ag reg (pre ++ block :: rest) [] [] st) as [[r|e] st'] eqn:E.
    + rewrite xml_loop_app in E.
      destruct (xml_loop py ag reg pre [] [] st) as [[[rs' ns']|e] st'']; [|done].
      by rewrite (xml_loop_empty_root _ _ _ _ _ _ _ _ Hroot) in E.
    + exists e, st'. split.
      * apply xml_turn_raise. by rewrite Hb.
      * intros ->. simpl in E. rewrite Hroot in E. by injection E as <- <-.
Qed.

(** *** A tool name that resolves to nothing *)

Lemma xml_loop_unknown_tool py ag reg block rest tool_name children rs ns st :
  soup_find py block = Some (tool_name, children) →
  find_tool ag reg tool_name = None →
  getattr ag "_get_all_available_tools" = None →
  xml_loop py ag reg (block :: rest) rs ns st = (Raise (no_helper_error ag), st).
Proof.
  intros Hs Hf Hg. simpl. rewrite Hs, Hf.
  unfold tool_not_found, get_all_available_tools. by rewrite Hg.
Qed.

(** C3. The code as it is: the first block of a turn names a tool that is
    neither a permitted registry tool nor a callable attribute of the agent.
    The agent has no attribute [_get_all_available_tools] (class [Agent]
    does not define it), so the look-up of the helper raises
    [AttributeError]: the turn ends with that exception, the history gets
    no system message, and the call sends no other request than its own. *)
Theorem unknown_tool_raises_AttributeError py ag reg rsp rest_rsp messages images
    tool st text l st1 block rest tool_name children :
  receive ag rsp (send ag reg messages images st).2 = (Ok (Some text, l), st1) →
  fc_model ag && negb (bool_decide (l = [])) = false →
  Xml.xml_blocks (nonascii_word py) text = block :: rest →
  soup_find py block = Some (tool_name, children) →
  find_tool ag reg tool_name = None →
  getattr ag "_get_all_available_tools" = None →
  conversation_with_tool py ag reg (rsp :: rest_rsp) messages images tool st
  = (Raise (no_helper_error ag), st1)
  ∧ history st1 = history (send ag reg messages images st).2
  ∧ length (requests st1) = S (length (requests st)).
Proof.
  intros Hr Hfc Hb Hs Hf Hg. split; [|split].
  - rewrite conversation_step. erewrite turn_inline; [|exact Hr|exact Hfc].
    erewrite xml_turn_raise; [done|].
    rewrite Hb. by eapply xml_loop_unknown_tool.
  - pose proof (receive_history ag rsp (send ag reg messages images st).2) as H2.
    by rewrite Hr in H2.
  - pose proof (receive_requests ag rsp (send ag reg messages images st).2) as H2.
    rewrite Hr in H2. simpl in H2.
    rewrite H2, send_requests, length_app. simpl. lia.
Qed.



(** *** A tool that is found *)

(** One round of the block loop for a tool that is found: the call is
    made by [invoke]; its result goes to the two lists, its exception out
    of the loop. *)
Lemma xml_loop_found py ag reg block rest tool_name children f rs ns st :
  soup_find py block = Some (tool_name, children) →
  find_tool ag reg tool_name = Some f →
  xml_loop py ag reg (block :: rest) rs ns st
  = match invoke tool_name f (Xml.xml_params children) block (announced ag block st) with
    | (Ok r, st') => xml_loop py ag reg rest (rs ++ [r]) (ns ++ [tool_name]) st'
    | (Raise e, st') => (Raise e, st')
    end.
Proof. intros Hs Hf. simpl. by rewrite Hs, Hf. Qed.

(** C6, amended. A callable that accepts [**kwargs], or that has no
    required parameter, is called with the parsed parameters as keyword
    arguments (with no argument when there is none), whatever the number
    of its required parameters and of the parsed ones. A callable that does not accept [**kwargs] and has
    exactly one required parameter, called for a block with exactly one
    parameter, is called with the text of that parameter as its one
    positional argument, whatever the name of the child tag. *)
Theorem single_parameter_is_positional (tool_name : string) (f : callable W)
    (params : list (string * string)) (block : string) :
  (has_kwargs (signature f) || (param_count (signature f) =? 0)%nat = true →
   invoke tool_name f params block = call tool_name f (keywords params))
  ∧ (has_kwargs (signature f) = false →
     param_count (signature f) = 1 →
     ∀ k v, params = [(k, v)] →
            invoke tool_name f params block = call tool_name f (Args [PStr v] [])).
Proof.
  split.
  - intros Hk. unfold invoke. rewrite Hk. simpl. by destruct params.
  - intros Hk Hc k v ->. unfold invoke. by rewrite Hk, Hc.
Qed.

(** *** Exceptions of tools *)

(** With one required parameter and one parsed parameter, the exception of
    the tool is the exception of the block loop. *)
Lemma xml_loop_tool_raises py ag reg block rest tool_name children f k v e w' rs ns st :
  soup_find py block = Some (tool_name, children) →
  find_tool ag reg tool_name = Some f →
  has_kwargs (signature f) = false →
  param_count (signature f) = 1 →
  Xml.xml_params children = [(k, v)] →
  run f (Args [PStr v] []) (world st) = (Raise e, w') →
  ∃ st', xml_loop py ag reg (block :: rest) rs ns st = (Raise e, st')
         ∧ history st' = history st.
Proof.
  intros Hs Hf Hk Hc Hp Hr.
  rewrite (xml_loop_found _ _ _ _ _ _ _ _ _ _ _ Hs Hf).
  rewrite Hp. unfold invoke. rewrite Hk, Hc.
  unfold call. simpl. rewrite Hr. by eexists.
Qed.

(** C2, on the inline-tag path. The first block of the turn calls a tool of
    one required parameter with its one parsed parameter, and the tool
    raises [e]: the turn raises [e]. No result is recorded; the exception
    leaves [conversation_with_tool]. *)
Theorem inline_path_tool_exception_escapes py ag reg text tool st block rest
    tool_name children f k v e w' :
  Xml.xml_blocks (nonascii_word py) text = block :: rest →
  soup_find py block = Some (tool_name, children) →
  find_tool ag reg tool_name = Some f →
  has_kwargs (signature f) = false →
  param_count (signature f) = 1 →
  Xml.xml_params children = [(k, v)] →
  run f (Args [PStr v] []) (world st) = (Raise e, w') →
  ∃ st', xml_turn py ag reg text tool st = (Raise e, st')
         ∧ history st' = history st.
Proof.
  intros Hb Hs Hf Hk Hc Hp Hr.
  destruct (xml_loop_tool_raises py ag reg block rest tool_name children f k v e w'
              [] [] st Hs Hf Hk Hc Hp Hr) as (st' & Hl & Hh).
  exists st'. split; [|done]. apply xml_turn_raise. by rewrite Hb.
Qed.

(** The native path, for comparison: what [native_dispatch] lets out is
    never an [Exception]; an [Exception] of the tool, or of [json.loads],
    has become the content of the result. *)
Lemma native_dispatch_catches py ag reg tc st e st' :
  native_dispatch py ag reg tc st = (Raise e, st') → is_Exception e = false.
Proof.
  unfold native_dispatch. destruct (find_tool ag reg (call_name tc)) as [f|]; [|done].
  unfold try_except.
  match goal with |- context [match ?m st with _ => _ end] =>
    destruct (m st) as [[r|e0] st0] end; [done|].
  destruct (is_Exception e0) eqn:E; [done|]. by intros [= <- _].
Qed.

(** *** The unknown tool, had the helper been there *)

Lemma mapM_PStr (names : list string) :
  mapM (λ x, match x with PStr s => Some s | _ => None end) (PStr <$> names)
  = Some names.
Proof. induction names as [|n names IH]; [done|]. rewrite fmap_cons. cbn. by rewrite IH. Qed.

(** With a method [_get_all_available_tools] that returns a non-empty list
    of names, the unknown tool gives the system message the comment of the
    code announces: the tool name, then the names joined by commas. *)
Lemma tool_not_found_with_helper ag tool_name h n names w' st :
  getattr ag "_get_all_available_tools" = Some (Method h) →
  run h (Args [] []) (world st) = (Ok (PList (PStr <$> n :: names)), w') →
  let tool_error :=
    ("工具错误：找不到工具 '" +:+ tool_name +:+ "'。")
    +:+ " 你可以使用以下工具：" +:+ PyStr.join ", " (n :: names) in
  tool_not_found ag tool_name st
  = (Ok (PDict [("error", PStr tool_error)]),
     State (history st ++ [Msg system tool_error]) (stream_run st) (outputs st)
           (calls st ++ [("_get_all_available_tools", Args [] [])])
           (requests st) w').
Proof.
  intros Hg Hr. unfold tool_not_found, get_all_available_tools. rewrite Hg.
  unfold mbind at 1. unfold M_bind at 1. unfold call at 1. rewrite Hr.
  unfold truthy, join_names. cbv zeta.
  pose proof (mapM_PStr (n :: names)) as Hm. rewrite fmap_cons in Hm.
  rewrite fmap_cons. rewrite Hm.
  simpl. unfold mbind, M_bind. simpl. done.
Qed.


(** *** The extractor on a text with no opening tag *)






Lemma clean_cons c s :
  Xml.clean 0 (String c s)
  = match Xml.wrapper_at (String c s) with
    | Some n => Xml.clean (n - 1) s
    | None => String c (Xml.clean 0 s)
    end.
Proof. reflexivity. Qed.



End LoopFacts.

(** ** The scenarios *)

Section Scenarios.
Import Agent Scenario.



(** A reply whose one block calls [read_file], a tool of one required
    parameter that raises [ValueError]: the exception is that of the
    turn. *)
Lemma inline_path_tool_exception_escapes_witness :
  ∃ st',
    xml_turn py time_agent registry_with_failing_tool
      "<read_file><path>a</path></read_file>" false (fresh time_agent)
    = (Raise (Exn ValueError "no such file"), st')
    ∧ history st' = history (fresh time_agent).
Proof.
  exact (inline_path_tool_exception_escapes py time_agent registry_with_failing_tool
           "<read_file><path>a</path></read_file>" false (fresh time_agent)
           _ _ _ _ _ _ _ _ _ eq_refl eq_refl eq_refl eq_refl eq_refl eq_refl eq_refl).
Defined.

(** A native call of the same tool, with no argument: the error text is
    the content of the tool message, and the loop goes on. *)
Example native_path_reports_tool_exception :
  turn py scheduling_agent registry_with_failing_tool
    (calls_and_says
       (Fragment (Some 0%Z) (Some "call_0")
          (Some (FragmentFunction (Some "read_file") (Some "{}"))))
       EmptyString)
    false (fresh scheduling_agent)
  = (Ok Continue,
     State [Msg system (prompt scheduling_agent);
            MsgToolCalls [ToolCall (Some "call_0") "read_file" "{}"];
            MsgTool (Some "call_0") "read_file"
                    (PStr ("执行工具 read_file 时出错: "
                           +:+ "read_file() missing 1 required positional argument: 'path'"))]
           true
           [Out (Message None (uuid scheduling_agent) (name scheduling_agent) false)]
           [("read_file", Args [] [])] [] ()).
Proof. reflexivity. Qed.

(** [time_agent] receives a call of a tool nobody registered. *)
Lemma unknown_tool_raises_AttributeError_witness :
  let r :=
    conversation_with_tool py time_agent tool_registry
      [says "<nope></nope>"; says "11:03"] (Some "几点了") [] false
      (fresh time_agent) in
  r.1 = Raise (Exn AttributeError
                 "'time_agent' object has no attribute '_get_all_available_tools'")
  ∧ history r.2 = [Msg system (prompt time_agent); Msg user "几点了"]
  ∧ length (requests r.2) = 1.
Proof.
  destruct (unknown_tool_raises_AttributeError py time_agent tool_registry
              (says "<nope></nope>") [says "11:03"] (Some "几点了") [] false
              (fresh time_agent) _ _ _ _ _ _ _
              eq_refl eq_refl eq_refl eq_refl eq_refl eq_refl)
    as (H & Hh & Hr).
  cbv zeta. rewrite H. exact (conj eq_refl (conj Hh Hr)).
Defined.

(** Three blocks, the second with a name XML does not allow: the first
    call of [get_time] is made, the third is not. *)
Lemma empty_root_aborts_the_turn_witness :
  let r :=
    xml_loop py time_agent tool_registry
      (["<get_time></get_time>"] ++ "<1>a</1>" :: ["<get_time></get_time>"])
      [] [] (fresh time_agent) in
  r.1 = Raise (Exn ValueError "空 XML")
  ∧ calls r.2 = [("get_time", Args [] [])]
  ∧ history r.2 = history (fresh time_agent).
Proof.
  cbv zeta.
  rewrite (proj1 (empty_root_aborts_the_turn py time_agent tool_registry
                    ["<get_time></get_time>"] "<1>a</1>" ["<get_time></get_time>"]
                    [] [] (fresh time_agent) EmptyString false eq_refl)).
  repeat split.
Defined.

(** A malformed block before a well-formed one: the turn raises, no error
    is recorded for the first block and the second is not processed, though
    alone it would be. *)
Lemma empty_root_skips_later_blocks :
  let text := "<1>a</1> <get_time></get_time>" in
  let r := turn py time_agent tool_registry (says text) false (fresh time_agent) in
  Xml.xml_blocks (nonascii_word py) text = ["<1>a</1>"; "<get_time></get_time>"]
  ∧ soup_find py "<1>a</1>" = None
  ∧ r.1 = Raise (Exn ValueError "空 XML")
  ∧ calls r.2 = []
  ∧ history r.2 = history (fresh time_agent)
  ∧ (turn py time_agent tool_registry (says "<get_time></get_time>") false
       (fresh time_agent)).1 = Ok Continue.
Proof. vm_compute. repeat split. Qed.

(** [echo(text)] has one required parameter, and the child tag is not
    named after it: the text arrives. [search(query, **options)] gets the
    child tags as keywords. *)
Lemma single_parameter_is_positional_witness :
  (invoke "echo" echo [("anything", "hi")] "<echo><anything>hi</anything></echo>"
          (fresh time_agent)).1
  = Ok (PStr "hi")
  ∧ (invoke "search" search [("query", "rust"); ("lang", "en")]
            "<search><query>rust</query><lang>en</lang></search>"
            (fresh time_agent)).1
    = Ok (PList [PStr "rust"; PDict [("lang", PStr "en")]]).
Proof.
  split.
  - rewrite (proj2 (single_parameter_is_positional "echo" echo [("anything", "hi")]
                      "<echo><anything>hi</anything></echo>")
               eq_refl eq_refl "anything" "hi" eq_refl).
    reflexivity.
  - rewrite (proj1 (single_parameter_is_positional "search" search
                      [("query", "rust"); ("lang", "en")]
                      "<search><query>rust</query><lang>en</lang></search>")
               eq_refl).
    reflexivity.
Defined.

(** [search(query, **options)] has exactly one required parameter, and the
    block one child, which is not named [query]: the text of the child is
    given as the keyword [q], so the call cannot bind [query] and raises,
    where the positional call would have answered. *)
Lemma kwargs_tool_called_with_keywords :
  let block := "<search><q>rust</q></search>" in
  let r := invoke "search" search [("q", "rust")] block (fresh time_agent) in
  param_count (signature search) = 1
  ∧ length [("q", "rust")] = 1
  ∧ calls r.2 = [("search", Args [] [("q", PStr "rust")])]
  ∧ r.1 = Raise (Exn TypeError
                   "search() missing 1 required positional argument: 'query'")
  ∧ (call "search" search (Args [PStr "rust"] []) (fresh time_agent)).1
    = Ok (PList [PStr "rust"; PDict []]).
Proof. vm_compute. repeat split. Qed.


End Scenarios.


(** * Further properties of the code *)

(** ** Dictionaries *)

Section DictFacts.
Context {V : Type}.
Implicit Types (d : list (string * V)) (k : string) (v : V).

Lemma dict_get_set_ne k k' v d :
  k ≠ k' → PyDict.get k' (PyDict.set k v d) = PyDict.get k' d.
Proof.
  intros Hne. induction d as [|[k0 v0] d IH]; simpl.
  - destruct (String.eqb_spec k' k); [congruence|done].
  - destruct (String.eqb_spec k k0) as [->|]; simpl.
    + destruct (String.eqb_spec k' k0); [congruence|done].
    + by rewrite IH.
Qed.

Lemma dict_get_Some k v d : PyDict.get k d = Some v → (k, v) ∈ d.
Proof.
  induction d as [|[k0 v0] d IH]; simpl; [done|].
  destruct (String.eqb_spec k k0) as [->|].
  - intros [= ->]. left.
  - intros H. right. by apply IH.
Qed.


Lemma dict_keys_set_old k v d :
  k ∈ d.*1 → (PyDict.set k v d).*1 = d.*1.
Proof.
  induction d as [|[k0 v0] d IH]; csimpl; [by intros ?%elem_of_nil|].
  destruct (String.eqb_spec k k0) as [->|Hne]; [done|].
  intros [?|H]%elem_of_cons; [done|]. csimpl. by rewrite IH.
Qed.

Lemma dict_keys_set_new k v d :
  k ∉ d.*1 → (PyDict.set k v d).*1 = d.*1 ++ [k].
Proof.
  induction d as [|[k0 v0] d IH]; csimpl; [done|].
  intros [Hne H]%not_elem_of_cons.
  destruct (String.eqb_spec k k0); [done|]. csimpl. by rewrite IH.
Qed.

Lemma dict_set_NoDup k v d : NoDup d.*1 → NoDup (PyDict.set k v d).*1.
Proof.
  intros H. destruct (decide (k ∈ d.*1)) as [Hin|Hin].
  - by rewrite dict_keys_set_old.
  - rewrite dict_keys_set_new by done. apply NoDup_app. split; [done|].
    split; [|apply NoDup_singleton].
    intros x Hx ->%list_elem_of_singleton. done.
Qed.

Lemma dict_set_Forall (P : string * V → Prop) k v d :
  P (k, v) → Forall P d → Forall P (PyDict.set k v d).
Proof.
  intros Hk. induction 1 as [|[k0 v0] d H0 Hd IH]; simpl.
  - by constructor.
  - destruct (String.eqb k k0); constructor; done.
Qed.

End DictFacts.

(** ** More on the registry *)

Section RegistryMore.
Context {W : Type}.
Implicit Types (r : Registry.t W) (info : Registry.tool_info W).

Lemma register_tool_tools allowed descr nm params func_name func r :
  ∃ info,
    Registry._tools (Registry.register_tool allowed descr nm params func_name func r)
    = PyDict.set (Registry.tool_name_of nm func_name) info (Registry._tools r)
    ∧ Registry.name info = Registry.tool_name_of nm func_name
    ∧ Registry._uuid_to_name
        (Registry.register_tool allowed descr nm params func_name func r)
      = Registry._uuid_to_name r.
Proof.
  unfold Registry.register_tool, Registry.tool_name_of. simpl.
  by eexists.
Qed.

Lemma empty_well_formed : Registry.well_formed (Registry.empty : Registry.t W).
Proof. split; constructor. Qed.

(** X1. The registry stays a dict: from a registry in which no tool name
    occurs twice and every entry carries its key as its name, both
    [register_tool] (a new name or an old one) and [register_agent_uuid]
    lead to such a registry again. *)
Theorem registry_stays_well_formed r :
  Registry.well_formed r →
  (∀ allowed descr nm params func_name func,
     Registry.well_formed
       (Registry.register_tool allowed descr nm params func_name func r))
  ∧ (∀ u n, Registry.well_formed (Registry.register_agent_uuid u n r)).
Proof.
  intros [Hnd Hnm]. split; [|done].
  intros allowed descr nm params func_name func.
  destruct (register_tool_tools allowed descr nm params func_name func r)
    as (info & Ht & Hn & _).
  unfold Registry.well_formed. rewrite Ht. split.
  - by apply dict_set_NoDup.
  - by apply dict_set_Forall.
Qed.

(** X2. The tools [get_all_tools_info] lists for an agent are exactly the
    tools [check_permission] allows to that agent. *)
Theorem tools_info_lists_the_permitted r (agent tool_name : string) :
  tool_name ∈ (Registry.get_all_tools_info r agent).*1
  ↔ Registry.check_permission r agent tool_name = true.
Proof.
  unfold Registry.get_all_tools_info. rewrite list_elem_of_fmap. split.
  - intros ([n x] & -> & Hin). apply list_elem_of_omap in Hin as ([k info] & _ & Hk).
    simpl in Hk. destruct (Registry.check_permission r agent k) eqn:E; [|done].
    by injection Hk as <- _.
  - intros Hc. pose proof Hc as Hc'. unfold Registry.check_permission in Hc'.
    destruct (PyDict.get tool_name (Registry._tools r)) as [info|] eqn:E; [|done].
    exists (tool_name, (Registry.description info, Registry.parameters info)).
    split; [done|]. apply list_elem_of_omap. exists (tool_name, info).
    split; [by apply dict_get_Some|]. simpl. by rewrite Hc.
Qed.

Lemma omap_names {A B} (f : string * A → option (string * B)) (l : list (string * A)) :
  (∀ kv y, f kv = Some y → y.1 = kv.1) →
  NoDup l.*1 → NoDup (omap f l).*1.
Proof.
  intros Hf. induction l as [|kv l IH]; csimpl; [constructor|].
  intros [Hin Hnd]%NoDup_cons. destruct (f kv) as [y|] eqn:E; csimpl; [|by apply IH].
  apply NoDup_cons. split; [|by apply IH].
  rewrite (Hf _ _ E). intros Hy. apply Hin.
  apply list_elem_of_fmap in Hy as (z & -> & Hz).
  apply list_elem_of_omap in Hz as (kv' & Hkv' & E').
  rewrite (Hf _ _ E'). apply list_elem_of_fmap. by exists kv'.
Qed.

(** X3. In a well-formed registry the listing of an agent's tools names
    no tool twice, and the schemas offered to the model with function
    calling carry the same names in the same order. *)
Theorem tools_schema_names_the_listed_tools r (agent : string) :
  Registry.well_formed r →
  NoDup (Registry.get_all_tools_info r agent).*1
  ∧ (Registry.get_all_tools_schema r agent).*1.*1
    = (Registry.get_all_tools_info r agent).*1.
Proof.
  intros [Hnd Hnm]. split.
  - apply omap_names; [|done]. intros kv y. simpl.
    destruct (Registry.check_permission r agent kv.1); [|done]. by intros [= <-].
  - unfold Registry.get_all_tools_schema, Registry.get_all_tools_info.
    clear Hnd. induction Hnm as [|kv l Hk Hl IH]; csimpl; [done|].
    destruct (Registry.check_permission r agent kv.1); csimpl; [|done].
    by rewrite Hk, IH.
Qed.

(** X4. Registering a tool touches its own name only: the look-up and the
    permissions of every other name are as before; and a name registered
    before keeps its place in the order and is not counted twice (the old
    tool is replaced without notice). *)
Theorem register_tool_leaves_other_tools allowed descr nm params func_name func r
    (agent other : string) :
  other ≠ Registry.tool_name_of nm func_name →
  let r' := Registry.register_tool allowed descr nm params func_name func r in
  Registry.get_tool_info r' other = Registry.get_tool_info r other
  ∧ Registry.check_permission r' agent other = Registry.check_permission r agent other
  ∧ (Registry.tool_name_of nm func_name ∈ (Registry._tools r).*1 →
     (Registry._tools r').*1 = (Registry._tools r).*1).
Proof.
  intros Hne r'.
  destruct (register_tool_tools allowed descr nm params func_name func r)
    as (info & Ht & Hn & Hu).
  fold r' in Ht, Hu.
  assert (Hg : Registry.get_tool_info r' other = Registry.get_tool_info r other).
  { unfold Registry.get_tool_info. rewrite Ht. by apply dict_get_set_ne. }
  split; [exact Hg|]. split.
  - unfold Registry.check_permission, Registry.canonical_name.
    unfold Registry.get_tool_info in Hg. by rewrite Hg, Hu.
  - intros Hin. rewrite Ht. by apply dict_keys_set_old.
Qed.

(** X5. The allow-list is compared with the resolved name only: once a
    uuid is mapped to a name, a tool whose allow-list does not hold that
    name is refused to the uuid, even when the list holds the uuid itself. *)
Theorem allow_list_is_matched_after_resolution r (u n tool_name : string) info allowed :
  Registry._uuid_to_name r !! u = Some n →
  Registry.get_tool_info r tool_name = Some info →
  Registry.allowed_agents info = Some allowed →
  n ∉ allowed →
  Registry.check_permission r u tool_name = false.
Proof.
  unfold Registry.get_tool_info, Registry.check_permission, Registry.canonical_name.
  intros -> -> -> Hn. by apply bool_decide_eq_false.
Qed.

End RegistryMore.

(** The registry of [main.py], and the same with [read_file] added. *)
Lemma registry_stays_well_formed_witness :
  Registry.well_formed Scenario.tool_registry
  ∧ Registry.well_formed Scenario.registry_with_failing_tool.
Proof.
  assert (H : Registry.well_formed Scenario.tool_registry).
  { exact (proj1 (registry_stays_well_formed Registry.empty empty_well_formed)
             _ _ _ _ _ _). }
  split; [exact H|].
  exact (proj1 (registry_stays_well_formed Scenario.tool_registry H) _ _ _ _ _ _).
Defined.

Lemma tools_schema_names_the_listed_tools_witness :
  NoDup (Registry.get_all_tools_info Scenario.registry_with_failing_tool
           "time_agent").*1
  ∧ (Registry.get_all_tools_schema Scenario.registry_with_failing_tool
       "time_agent").*1.*1
    = ["get_time"; "read_file"].
Proof.
  apply (tools_schema_names_the_listed_tools Scenario.registry_with_failing_tool
           "time_agent").
  split; [|by repeat constructor].
  apply (NoDup_cons_2 "get_time" ["read_file"]);
    [by intros ?%list_elem_of_singleton | apply NoDup_singleton].
Defined.

(** Registering [read_file] leaves [get_time] to [time_agent] alone. *)
Lemma register_tool_leaves_other_tools_witness :
  Registry.get_tool_info Scenario.registry_with_failing_tool "get_time"
  = Registry.get_tool_info Scenario.tool_registry "get_time"
  ∧ Registry.check_permission Scenario.registry_with_failing_tool
      "scheduling_agent" "get_time"
    = Registry.check_permission Scenario.tool_registry "scheduling_agent" "get_time".
Proof.
  destruct (register_tool_leaves_other_tools Registry.AllowNone "读取文件"
              (Some "read_file") None "read_file" Scenario.failing_tool
              Scenario.tool_registry "scheduling_agent" "get_time"
              ltac:(discriminate))
    as (H1 & H2 & _).
  exact (conj H1 H2).
Defined.

(** [get_time] allowed to the uuid of [time_agent] alone: after the
    constructor of the agent has mapped the uuid to the name, the uuid is
    refused. *)
Lemma allow_list_is_matched_after_resolution_witness :
  let r :=
    Registry.register_agent_uuid Scenario.time_agent_uuid "time_agent"
      (Registry.register_tool (Registry.AllowStr Scenario.time_agent_uuid)
         "获取当前时间" (Some "get_time") None "get_time" Scenario.get_time
         Registry.empty) in
  Registry.check_permission r Scenario.time_agent_uuid "get_time" = false
  ∧ Registry.check_permission
      (Registry.register_tool (Registry.AllowStr Scenario.time_agent_uuid)
         "获取当前时间" (Some "get_time") None "get_time" Scenario.get_time
         Registry.empty)
      Scenario.time_agent_uuid "get_time" = true.
Proof.
  intros r. split; [|reflexivity].
  apply (allow_list_is_matched_after_resolution r Scenario.time_agent_uuid
           "time_agent" "get_time" _ [Scenario.time_agent_uuid]
           eq_refl eq_refl eq_refl).
  by intros ?%list_elem_of_singleton.
Defined.

(** ** More on construction and on the directory *)

Section ConstructionMore.
Context {W : Type}.
Import Agent.
Implicit Types (ag : agent W) (reg : Registry.t W).


(** X7. After the constructor has run (whatever the probe gave), the uuid
    of an agent with a non-empty uuid and name stands for its name: a tool
    with an allow-list is permitted to the uuid exactly when the list holds
    the name. *)
Theorem constructed_agent_is_checked_by_name ag reg (status : Z) (w : W)
    (tool_name : string) info allowed :
  uuid ag ≠ EmptyString → name ag ≠ EmptyString →
  let reg' := (__init__ ag reg status w).1 in
  Registry.get_tool_info reg' tool_name = Some info →
  Registry.allowed_agents info = Some allowed →
  Registry.canonical_name reg' (uuid ag) = name ag
  ∧ (Registry.check_permission reg' (uuid ag) tool_name = true ↔ name ag ∈ allowed).
Proof.
  intros Hu Hn reg'.
  assert (Hr : reg' = Registry.register_agent_uuid (uuid ag) (name ag) reg).
  { unfold reg', __init__, register_self. simpl.
    apply String.eqb_neq in Hu, Hn. by rewrite Hn, Hn, Hu. }
  rewrite Hr. intros Hg Ha.
  assert (Hc : Registry.canonical_name
                 (Registry.register_agent_uuid (uuid ag) (name ag) reg) (uuid ag)
               = name ag).
  { unfold Registry.canonical_name, Registry.register_agent_uuid. simpl.
    by rewrite lookup_insert_eq. }
  split; [exact Hc|].
  unfold Registry.check_permission. unfold Registry.get_tool_info in Hg.
  by rewrite Hg, Ha, Hc, bool_decide_eq_true.
Qed.

End ConstructionMore.


(** [scheduling_agent] is refused [get_time] by uuid as it is by name. *)
Lemma constructed_agent_is_checked_by_name_witness :
  Registry.canonical_name
    (Agent.__init__ Scenario.scheduling_agent Scenario.tool_registry 200 ()).1
    (Agent.uuid Scenario.scheduling_agent) = "scheduling_agent"
  ∧ (Registry.check_permission
       (Agent.__init__ Scenario.scheduling_agent Scenario.tool_registry 200 ()).1
       (Agent.uuid Scenario.scheduling_agent) "get_time" = true
     ↔ "scheduling_agent" ∈ [Scenario.time_agent_uuid; "time_agent"]).
Proof.
  exact (constructed_agent_is_checked_by_name Scenario.scheduling_agent
           Scenario.tool_registry 200 () "get_time" _ _
           ltac:(discriminate) ltac:(discriminate) eq_refl eq_refl).
Defined.

Section DirectoryMore.
Context {Obj : Type}.

(** X8. A registration changes the two keys it is given and nothing else:
    every other key leads where it led, and every object stored before is
    still at its address. Registering under a key in use redirects that key
    to the new object. When the constructor raises, the decorator raises
    the same exception and no directory results. *)
Theorem register_agent_leaves_other_keys (U N : string) (cls : Directory.class Obj)
    (d : Directory.t Obj) :
  match Directory.register_agent U N cls d with
  | Ok (a, d') =>
      (∀ k, k ≠ U → k ≠ N → Directory.agent_list d' !! k = Directory.agent_list d !! k)
      ∧ (∀ b o, Directory.store d !! b = Some o → Directory.store d' !! b = Some o)
      ∧ Directory.store d !! a = None
  | Raise e => cls U N = Raise e
  end.
Proof.
  unfold Directory.register_agent, Directory.alloc.
  destruct (cls U N) as [inst|e]; [|done]. simpl. split; [|split].
  - intros k HU HN. by rewrite !lookup_insert_ne.
  - intros b o Hb. by apply lookup_app_l_Some.
  - by apply lookup_ge_None.
Qed.

End DirectoryMore.

(** ** More on the two parsers *)

Section StringFacts.

Lemma append_cons (x : ascii) (a b : string) :
  String x a +:+ b = String x (a +:+ b).
Proof. reflexivity. Qed.

Lemma append_empty_l (a : string) : EmptyString +:+ a = a.
Proof. reflexivity. Qed.

Lemma append_assoc (a b c : string) : (a +:+ b) +:+ c = a +:+ b +:+ c.
Proof.
  induction a as [|x a IH]; [done|]. by rewrite !append_cons, IH.
Qed.

Lemma append_empty_r (a : string) : a +:+ EmptyString = a.
Proof. induction a as [|x a IH]; [done|]. by rewrite append_cons, IH. Qed.

Lemma strip_prefix_Some p s r : PyStr.strip_prefix p s = Some r → s = p +:+ r.
Proof.
  revert s. induction p as [|a p IH]; intros s; simpl; [by intros [= ->]|].
  destruct s as [|b s]; [done|].
  destruct (Ascii.eqb_spec a b) as [->|]; [|done].
  intros H. by rewrite append_cons, <- (IH _ H).
Qed.

Lemma split_first_Some p s a r :
  PyStr.split_first p s = Some (a, r) → s = a +:+ p +:+ r.
Proof.
  revert a. induction s as [|c s IH]; intros a; simpl.
  - destruct (PyStr.strip_prefix p EmptyString) eqn:E; [|done].
    intros [= <- <-]. rewrite append_empty_l. by apply strip_prefix_Some.
  - destruct (PyStr.strip_prefix p (String c s)) eqn:E.
    + intros [= <- <-]. rewrite append_empty_l. by apply strip_prefix_Some.
    + destruct (PyStr.split_first p s) as [[a' r']|]; [|done].
      intros [= <- <-]. by rewrite append_cons, <- (IH a').
Qed.

Lemma word_run_spec nw s w r :
  Xml.word_run nw s = (w, r) →
  s = w +:+ r ∧ StrictXml.all_chars (Xml.is_word nw) w = true.
Proof.
  revert w. induction s as [|c s IH]; intros w; simpl; [by intros [= <- <-]|].
  destruct (Xml.is_word nw c) eqn:E; [|by intros [= <- <-]].
  destruct (Xml.word_run nw s) as [w' r']. intros [= <- <-].
  destruct (IH w' eq_refl) as [Hs H]. split.
  - by rewrite append_cons, <- Hs.
  - simpl. by rewrite E, H.
Qed.

End StringFacts.

Section ExtractorMore.
Import Agent.

(** What a block is: an opening tag whose name is a non-empty run of word
    characters, a body, and the closing tag of the same name. *)
Definition well_tagged (nw : ascii → bool) (b : string) : Prop :=
  ∃ n body,
    b = "<" +:+ n +:+ ">" +:+ body +:+ "</" +:+ n +:+ ">"
    ∧ n ≠ EmptyString
    ∧ StrictXml.all_chars (Xml.is_word nw) n = true.

Lemma match_block_spec nw s b :
  Xml.match_block nw s = Some b →
  well_tagged nw b ∧ ∃ rest, s = b +:+ rest.
Proof.
  unfold Xml.match_block. destruct s as [|c s]; [done|].
  destruct c as [[] [] [] [] [] [] [] []]; try done.
  destruct (Xml.word_run nw s) as [n r] eqn:Ew.
  destruct (word_run_spec _ _ _ _ Ew) as [-> Hn].
  destruct n as [|x n]; [done|].
  destruct r as [|c r]; [done|].
  destruct c as [[] [] [] [] [] [] [] []]; try done.
  destruct (PyStr.split_first _ r) as [[body rest]|] eqn:Es; [|done].
  intros [= <-]. apply split_first_Some in Es as ->. split.
  - by exists (String x n), body.
  - exists rest. rewrite !append_assoc. reflexivity.
Qed.

Lemma finditer_cons nw k c s :
  Xml.finditer nw k (String c s)
  = match k with
    | S k' => Xml.finditer nw k' s
    | O =>
        match Xml.match_block nw (String c s) with
        | Some b => b :: Xml.finditer nw (String.length b - 1) s
        | None => Xml.finditer nw 0 s
        end
    end.
Proof. reflexivity. Qed.

Lemma finditer_well_tagged nw s k : Forall (well_tagged nw) (Xml.finditer nw k s).
Proof.
  revert k. induction s as [|c s IH]; intros k; [constructor|].
  rewrite finditer_cons. destruct k; [|apply IH].
  destruct (Xml.match_block nw (String c s)) as [b|] eqn:E; [|apply IH].
  constructor; [|apply IH]. by apply match_block_spec in E as [? _].
Qed.

(** The text made of the gaps and the blocks in turn: [g1 b1 g2 b2 ...]. *)
Fixpoint interleave (gaps blocks : list string) : string :=
  match gaps, blocks with
  | g :: gs, b :: bs => g +:+ b +:+ interleave gs bs
  | _, _ => EmptyString
  end.

Lemma finditer_skip nw (a r : string) :
  Xml.finditer nw (String.length a) (a +:+ r) = Xml.finditer nw 0 r.
Proof.
  induction a as [|x a IH]; [by destruct r|].
  rewrite append_cons, finditer_cons. exact IH.
Qed.

Lemma finditer_decompose nw (n : nat) :
  ∀ s, (String.length s ≤ n)%nat →
       ∃ gaps tail,
         length gaps = length (Xml.finditer nw 0 s)
         ∧ s = interleave gaps (Xml.finditer nw 0 s) +:+ tail.
Proof.
  induction n as [|n IH]; intros [|c s] Hlen; simpl in Hlen;
    try (by exists [], EmptyString); [lia|].
  rewrite finditer_cons.
  destruct (Xml.match_block nw (String c s)) as [b|] eqn:E.
  - destruct (match_block_spec _ _ _ E) as [(nm & body & Hb & _) [rest Hs]].
    destruct b as [|c' b']; [by rewrite Hb in *|].
    rewrite append_cons in Hs. injection Hs as <- ->.
    change (String.length (String c b') - 1) with (String.length b' - 0).
    rewrite Nat.sub_0_r, finditer_skip.
    destruct (IH rest) as (gaps & tail & Hg & Hr).
    { rewrite length_append in Hlen. lia. }
    exists (EmptyString :: gaps), tail. split; [simpl; by rewrite Hg|].
    simpl interleave. rewrite append_empty_l, append_assoc. by rewrite <- Hr.
  - destruct (IH s) as (gaps & tail & Hg & Hr); [lia|].
    destruct (Xml.finditer nw 0 s) as [|b bs].
    + exists [], (String c s). by destruct gaps.
    + destruct gaps as [|g gs]; [done|].
      exists (String c g :: gs), tail. split; [done|].
      simpl interleave in *. by rewrite !append_cons, <- Hr.
Qed.

(** A text of ASCII characters: each of its bytes is a character, so the
    regular expressions read it as the extractor above does. *)
Definition ascii_text (s : string) : bool :=
  StrictXml.all_chars (λ c, (nat_of_ascii c <? 128)%nat) s.

Lemma word_run_ascii nw nw' s :
  ascii_text s = true → Xml.word_run nw s = Xml.word_run nw' s.
Proof.
  induction s as [|c s IH]; [done|]. unfold ascii_text. simpl.
  intros [Hc Hs]%andb_true_iff. unfold Xml.is_word. rewrite Hc.
  by rewrite (IH Hs).
Qed.

Lemma match_block_ascii nw nw' s :
  ascii_text s = true → Xml.match_block nw s = Xml.match_block nw' s.
Proof.
  unfold Xml.match_block. destruct s as [|c s]; [done|].
  unfold ascii_text. simpl. intros [_ Hs]%andb_true_iff.
  destruct c as [[] [] [] [] [] [] [] []]; try done.
  by rewrite (word_run_ascii nw nw' s Hs).
Qed.

Lemma finditer_ascii nw nw' s k :
  ascii_text s = true → Xml.finditer nw k s = Xml.finditer nw' k s.
Proof.
  revert k. induction s as [|c s IH]; intros k Hs; [done|].
  rewrite !finditer_cons, (match_block_ascii nw nw' _ Hs).
  unfold ascii_text in Hs. simpl in Hs. apply andb_true_iff in Hs as [_ Hs].
  destruct k as [|k]; [|by apply IH].
  destruct (Xml.match_block nw' (String c s)) as [b|]; [|by apply IH].
  by rewrite (IH _ Hs).
Qed.

Lemma clean_ascii s k : ascii_text s = true → ascii_text (Xml.clean k s) = true.
Proof.
  revert k. induction s as [|c s IH]; intros k Hs; [done|].
  pose proof Hs as Hs'. unfold ascii_text in Hs'. simpl in Hs'.
  apply andb_true_iff in Hs' as [Hc Hs'].
  destruct k as [|k]; [|by apply IH].
  rewrite clean_cons. destruct (Xml.wrapper_at (String c s)); [by apply IH|].
  unfold ascii_text. simpl. rewrite Hc. by apply IH.
Qed.

(** X9. For a text of ASCII characters, the blocks the extractor returns
    do not depend on how characters outside ASCII are classed; they are
    pieces of the text cleaned of its wrapper tags, in their order and
    without overlap (the cleaned text is a gap, the first block, a gap,
    the second block, and so on, then a tail), and every block has the
    shape [<name>...</name>]: it opens with a tag whose name is a
    non-empty run of word characters and ends with the closing tag of
    that same name. *)
Theorem xml_blocks_are_well_tagged nw (text : string) :
  ascii_text text = true →
  Xml.xml_blocks nw text = Xml.xml_blocks (λ _, false) text
  ∧ Forall (well_tagged nw) (Xml.xml_blocks nw text)
  ∧ ∃ gaps tail,
      length gaps = length (Xml.xml_blocks nw text)
      ∧ Xml.clean 0 text = interleave gaps (Xml.xml_blocks nw text) +:+ tail.
Proof.
  intros Ha. split; [|split].
  - unfold Xml.xml_blocks. by apply finditer_ascii, clean_ascii.
  - apply finditer_well_tagged.
  - by apply (finditer_decompose nw (String.length (Xml.clean 0 text))).
Qed.

(** The text of the last child tag named [k]. *)
Definition last_tag_text (k : string) (children : list Xml.node) : option string :=
  last (omap (λ c, match c with
                   | Xml.NTag n _ => if String.eqb k n then Some (Xml.node_text c) else None
                   | Xml.NText _ => None
                   end) children).

Lemma xml_params_fold k children acc :
  PyDict.get k
    (foldl (λ params child,
              match child with
              | Xml.NTag nm _ => PyDict.set nm (Xml.node_text child) params
              | Xml.NText _ => params
              end) acc children)
  = match last_tag_text k children with
    | Some t => Some t
    | None => PyDict.get k acc
    end.
Proof.
  unfold last_tag_text. revert acc.
  induction children as [|c cs IH]; intros acc; [done|].
  simpl foldl. rewrite IH. csimpl.
  destruct c as [n l|t]; [|done].
  destruct (String.eqb_spec k n) as [->|Hne].
  - csimpl. rewrite last_cons.
    destruct (last _) as [t|]; [done|]. by rewrite get_set_eq.
  - destruct (last _) as [t|]; [done|]. by apply dict_get_set_ne.
Qed.

(** X10. The parameters of a block: a name is a parameter exactly when
    some child tag bears it, its value is the text of the last such child
    (an earlier child of the same name is overwritten), and no name occurs
    twice. Text between the children is no parameter. *)
Theorem xml_params_last_child_wins (children : list Xml.node) (k : string) :
  PyDict.get k (Xml.xml_params children) = last_tag_text k children
  ∧ NoDup (Xml.xml_params children).*1.
Proof.
  split.
  - unfold Xml.xml_params. rewrite xml_params_fold.
    by destruct (last_tag_text k children).
  - unfold Xml.xml_params. generalize (NoDup_nil_2 (A := string)).
    change (@nil string) with ((@nil (string * string)).*1).
    generalize (@nil (string * string)).
    induction children as [|c cs IH]; intros acc Hacc; [done|].
    simpl. apply IH. destruct c; [by apply dict_set_NoDup|done].
Qed.

End ExtractorMore.

(** A reply of [time_agent] with its wrapper tags: one block, the call of
    [get_time]. *)
Lemma xml_blocks_are_well_tagged_witness :
  Xml.xml_blocks (Agent.nonascii_word Scenario.py)
    "<out_text>ok <get_time></get_time></out_text>"
  = ["<get_time></get_time>"]
  ∧ Forall (well_tagged (Agent.nonascii_word Scenario.py))
           (Xml.xml_blocks (Agent.nonascii_word Scenario.py)
              "<out_text>ok <get_time></get_time></out_text>").
Proof.
  destruct (xml_blocks_are_well_tagged (Agent.nonascii_word Scenario.py)
              "<out_text>ok <get_time></get_time></out_text>" eq_refl)
    as (H1 & H2 & _).
  split; [by rewrite H1|exact H2].
Defined.

Section AccumulatorMore.
Context {W : Type}.
Import Agent.

(** An entry after more fragments: the same id and name, and a buffer that
    starts with the old one. *)
Definition grown (tc tc' : tool_call) : Prop :=
  call_id tc' = call_id tc ∧ call_name tc' = call_name tc
  ∧ ∃ a, call_arguments tc' = call_arguments tc +:+ a.

Lemma grown_refl tc : grown tc tc.
Proof. repeat split. exists EmptyString. by rewrite append_empty_r. Qed.

Lemma grown_trans tc1 tc2 tc3 : grown tc1 tc2 → grown tc2 tc3 → grown tc1 tc3.
Proof.
  intros (H1 & H2 & a & Ha) (H3 & H4 & b & Hb). repeat split; [congruence..|].
  exists (a +:+ b). by rewrite Hb, Ha, append_assoc.
Qed.

Lemma accumulate_grows l c l' :
  accumulate l c = Ok l' →
  (length l ≤ length l' ≤ S (length l))%nat
  ∧ ∀ i tc, l !! i = Some tc → ∃ tc', l' !! i = Some tc' ∧ grown tc tc'.
Proof.
  unfold accumulate. destruct (frag_index c) as [idx|]; cycle 1.
  { intros [= <-]. split; [lia|]. intros i tc H. exists tc. split; [done|apply grown_refl]. }
  destruct (Z.of_nat (length l) <=? idx)%Z.
  - destruct (frag_function c) as [f|]; [|done].
    destruct (frag_name f) as [n|]; [|done]. intros [= <-].
    rewrite length_app. simpl. split; [lia|].
    intros i tc H. exists tc. split; [by apply lookup_app_l_Some|apply grown_refl].
  - destruct (frag_function c) as [f|]; [|done].
    destruct (frag_arguments f) as [a|]; cycle 1.
    { intros [= <-]. split; [lia|]. intros i tc H. exists tc. split; [done|apply grown_refl]. }
    cbv zeta. destruct (_ <? 0)%Z; [done|]. intros [= <-].
    rewrite length_alter. split; [lia|].
    intros i tc H. rewrite list_lookup_alter. case_decide as E.
    + subst. rewrite H. eexists. split; [done|].
      repeat split. by exists a.
    + exists tc. split; [done|apply grown_refl].
Qed.

(** X11. Accumulation never loses anything: whatever the fragments (any
    index, negative ones too), when [accumulate_all] does not raise, every
    entry that was there is still at its position with the same id and
    name and a buffer that starts with the old buffer, and the number of
    entries has grown by at most one per fragment. *)
Theorem accumulate_keeps_entries (cs : list fragment) (l l' : list tool_call) :
  accumulate_all l cs = Ok l' →
  (length l ≤ length l' ≤ length l + length cs)%nat
  ∧ ∀ i tc, l !! i = Some tc → ∃ tc', l' !! i = Some tc' ∧ grown tc tc'.
Proof.
  revert l. induction cs as [|c cs IH]; intros l; simpl.
  - intros [= <-]. split; [lia|]. intros i tc H. exists tc. split; [done|apply grown_refl].
  - destruct (accumulate l c) as [l1|e] eqn:E; [|done]. intros H.
    destruct (accumulate_grows _ _ _ E) as [Hlen1 Hg1].
    destruct (IH _ H) as [Hlen2 Hg2]. split; [lia|].
    intros i tc Hi. destruct (Hg1 _ _ Hi) as (tc1 & H1 & G1).
    destruct (Hg2 _ _ H1) as (tc2 & H2 & G2).
    exists tc2. split; [done|]. by eapply grown_trans.
Qed.

(** What one chunk makes the agent write out: its text, if any, then the
    end-of-task mark and the usage line, if it carries a usage. *)
Definition chunk_outputs (ag : agent W) (ch : chunk) : list output :=
  (if String.eqb (delta_content ch) EmptyString then []
   else [Out (Message (Some (delta_content ch)) (uuid ag) (name ag) false)])
  ++ match chunk_usage ch with
     | Some u => [Out Task; Out (Message (Some (usage_text u)) (uuid ag) (name ag) true)]
     | None => []
     end.

Lemma accumulate_all_app l cs1 cs2 :
  accumulate_all l (cs1 ++ cs2)
  = match accumulate_all l cs1 with
    | Ok l1 => accumulate_all l1 cs2
    | Raise e => Raise e
    end.
Proof.
  revert l. induction cs1 as [|c cs1 IH]; intros l; simpl; [done|].
  destruct (accumulate l c); [apply IH|done].
Qed.

(** One chunk of the stream. *)
Lemma receive_stream_cons (ag : agent W) ch chunks s l st :
  receive_stream ag (ch :: chunks) s l st
  = match (if fc_model ag then accumulate_all l (delta_tool_calls ch) else Ok l) with
    | Raise e => (Raise e, st)
    | Ok l1 =>
        receive_stream ag chunks (s +:+ delta_content ch) l1
          (State (history st)
                 (if bool_decide (is_Some (chunk_usage ch)) then false
                  else stream_run st)
                 (outputs st ++ chunk_outputs ag ch)
                 (calls st) (requests st) (world st))
    end.
Proof.
  simpl. unfold mbind at 1. unfold M_bind at 1.
  assert (Hacc : (if fc_model ag
                  then match accumulate_all l (delta_tool_calls ch) with
                       | Ok l0 => mret l0
                       | Raise e => raise e
                       end
                  else mret l) st
                 = match (if fc_model ag then accumulate_all l (delta_tool_calls ch)
                          else Ok l) with
                   | Ok l1 => (Ok l1, st)
                   | Raise e => (Raise e, st)
                   end).
  { destruct (fc_model ag); [|done]. by destruct (accumulate_all _ _). }
  rewrite Hacc. clear Hacc.
  destruct (if fc_model ag then accumulate_all l (delta_tool_calls ch) else Ok l)
    as [l1|e]; [|done].
  unfold chunk_outputs, report_usage, pack, set_stream_run, emit.
  destruct st as [h sr o c r w].
  destruct (String.eqb_spec (delta_content ch) EmptyString) as [Hc|Hc];
    destruct (chunk_usage ch) as [u|]; unfold mbind, M_bind; simpl;
    rewrite ?Hc, ?append_empty_r, ?app_nil_r, <- ?app_assoc; reflexivity.
Qed.

(** X12. A streamed reply whose call fragments accumulate without an
    exception: the text of the turn is the texts of the chunks joined in
    arrival order, every non-empty text has been handed to [out] as it
    came (before the usage line of its chunk), the calls are those of all
    the fragments accumulated in order (none when function calling is
    off), and nothing else of the state has changed but [stream_run], which
    a chunk with a usage sets to false. *)
Theorem receive_stream_joins_the_chunks (ag : agent W) (chunks : list chunk)
    (s : string) (l l' : list tool_call) (st : state W) :
  (if fc_model ag then accumulate_all l (concat (delta_tool_calls <$> chunks))
   else Ok l) = Ok l' →
  receive_stream ag chunks s l st
  = (Ok (s +:+ concat_strings (delta_content <$> chunks), l'),
     State (history st)
           (if existsb (λ ch, bool_decide (is_Some (chunk_usage ch))) chunks
            then false else stream_run st)
           (outputs st ++ concat (chunk_outputs ag <$> chunks))
           (calls st) (requests st) (world st)).
Proof.
  revert s l st. induction chunks as [|ch chunks IH]; intros s l st.
  - csimpl. destruct (fc_model ag); intros [= <-];
      rewrite append_empty_r, app_nil_r; by destruct st.
  - intros Hacc. rewrite receive_stream_cons.
    rewrite !fmap_cons. rewrite fmap_cons in Hacc.
    change (concat (delta_tool_calls ch :: (delta_tool_calls <$> chunks)))
      with (delta_tool_calls ch ++ concat (delta_tool_calls <$> chunks)) in Hacc.
    change (concat_strings (delta_content ch :: (delta_content <$> chunks)))
      with (delta_content ch +:+ concat_strings (delta_content <$> chunks)).
    change (concat (chunk_outputs ag ch :: (chunk_outputs ag <$> chunks)))
      with (chunk_outputs ag ch ++ concat (chunk_outputs ag <$> chunks)).
    change (existsb (λ ch, bool_decide (is_Some (chunk_usage ch))) (ch :: chunks))
      with (bool_decide (is_Some (chunk_usage ch))
            || existsb (λ ch, bool_decide (is_Some (chunk_usage ch))) chunks).
    assert (∃ l1, (if fc_model ag then accumulate_all l (delta_tool_calls ch) else Ok l)
                  = Ok l1
                  ∧ (if fc_model ag
                     then accumulate_all l1 (concat (delta_tool_calls <$> chunks))
                     else Ok l1) = Ok l') as (l1 & H1 & H2).
    { destruct (fc_model ag); [|by exists l].
      rewrite accumulate_all_app in Hacc.
      destruct (accumulate_all l (delta_tool_calls ch)) as [l1|]; [|done].
      by exists l1. }
    rewrite H1, (IH _ _ _ H2). simpl.
    rewrite append_assoc, <- app_assoc.
    by destruct (bool_decide (is_Some (chunk_usage ch))), (existsb _ chunks).
Qed.

End AccumulatorMore.

(** A fragment with index -1 extends the last entry, as a Python list
    index does. *)
Lemma accumulate_keeps_entries_witness :
  Agent.accumulate_all [Agent.ToolCall (Some "call_0") "get_time" "{"]
    [Agent.Fragment (Some (-1)%Z) None
       (Some (Agent.FragmentFunction None (Some "}")))]
  = Ok [Agent.ToolCall (Some "call_0") "get_time" "{}"]
  ∧ ∃ tc', [Agent.ToolCall (Some "call_0") "get_time" "{}"] !! 0 = Some tc'
           ∧ grown (Agent.ToolCall (Some "call_0") "get_time" "{") tc'.
Proof.
  split; [reflexivity|].
  exact (proj2 (accumulate_keeps_entries
                  [Agent.Fragment (Some (-1)%Z) None
                     (Some (Agent.FragmentFunction None (Some "}")))]
                  [Agent.ToolCall (Some "call_0") "get_time" "{"]
                  [Agent.ToolCall (Some "call_0") "get_time" "{}"] eq_refl)
           0 _ eq_refl).
Defined.

(** The call of [get_time] arriving in two pieces, the second with the
    usage. *)
Lemma receive_stream_joins_the_chunks_witness :
  (Agent.receive_stream Scenario.time_agent
     [Agent.Chunk [] "<get_" None;
      Agent.Chunk [] "time></get_time>" (Some (Agent.Usage 12 7 19))]
     EmptyString [] (Scenario.fresh Scenario.time_agent)).1
  = Ok ("<get_time></get_time>", []).
Proof.
  exact (f_equal fst
           (receive_stream_joins_the_chunks Scenario.time_agent
              [Agent.Chunk [] "<get_" None;
               Agent.Chunk [] "time></get_time>" (Some (Agent.Usage 12 7 19))]
              EmptyString [] [] (Scenario.fresh Scenario.time_agent) eq_refl)).
Defined.

(** ** More on dispatch and on the loop *)

Section DispatchMore.
Context {W : Type}.
Import Agent.
Implicit Types (py : python) (ag : agent W) (reg : Registry.t W) (st : state W).

(** The state after a call of [tool_name] that left the world [w]. *)
Definition called (tool_name : string) (a : call_args) (w : W) st : state W :=
  State (history st) (stream_run st) (outputs st)
        (calls st ++ [(tool_name, a)]) (requests st) w.

(** X13. The fallback of the inline-tag path. For a callable without
    [**kwargs] that is not a one-parameter callable given one parameter and
    that has a required parameter: when the call with the parameters as
    keywords raises [TypeError], the callable is called a second time, with
    the raw block as its one positional argument, on the world the first
    call left, and the outcome of that second call is the outcome; any
    other exception of the first call is the outcome at once. *)
Theorem type_error_falls_back_to_block (tool_name : string) (f : callable W)
    (params : list (string * string)) (block : string) st e w1 :
  has_kwargs (signature f) = false →
  param_count (signature f) ≠ 0 →
  (param_count (signature f) =? 1)%nat && (length params =? 1)%nat = false →
  run f (keywords params) (world st) = (Raise e, w1) →
  invoke tool_name f params block st
  = if is_TypeError e
    then call tool_name f (Args [PStr block] [])
              (called tool_name (keywords params) w1 st)
    else (Raise e, called tool_name (keywords params) w1 st).
Proof.
  intros Hk Hc H1 Hr. unfold invoke. rewrite Hk.
  apply Nat.eqb_neq in Hc as ->. simpl. rewrite H1.
  unfold try_except, called. unfold call at 1. rewrite Hr.
  by destruct (is_TypeError e).
Qed.

(** X14. The results are reported by position: the k-th result is
    appended to the history under the k-th name, and the loop stops, without
    an error, at the first result that has no name (a result whose tool was
    not found has none, so the results after it move up by one name). *)
Theorem append_results_pairs_by_position py (rs : list pyval) (ns : list string) st :
  append_results py rs ns st
  = (Ok (),
     State (history st
              ++ zip_with (λ n r, Msg system (n +:+ " results: " +:+ str py r)) ns rs)
           (stream_run st) (outputs st) (calls st) (requests st) (world st)).
Proof.
  revert ns st. induction rs as [|r rs IH]; intros [|n ns] st; simpl;
    try (rewrite app_nil_r; by destruct st).
  unfold mbind, M_bind, history_append. simpl. rewrite IH. simpl.
  by rewrite <- app_assoc.
Qed.

(** X15. What the native path does with a tool that is found, whose
    arguments parse to an object and whose call raises [e]: an [Exception]
    becomes the error text of the result; anything else ([SystemExit] from
    [attempt_completion], say) is raised, so that the process ends. The
    call has been announced and recorded in both cases. *)
Theorem native_dispatch_of_a_raising_tool py ag reg tc f d e w1 st :
  find_tool ag reg (call_name tc) = Some f →
  json_loads py (call_arguments tc) = Ok (PDict d) →
  run f (Args [] d) (world st) = (Raise e, w1) →
  let st1 :=
    State (history st) (stream_run st)
          (outputs st ++ [Out (Message None (uuid ag) (name ag) false)])
          (calls st ++ [(call_name tc, Args [] d)]) (requests st) w1 in
  native_dispatch py ag reg tc st
  = if is_Exception e
    then (Ok (NativeResult (call_id tc) (call_name tc)
                (PStr ("执行工具 " +:+ call_name tc +:+ " 时出错: " +:+ exn_str e))),
          st1)
    else (Raise e, st1).
Proof.
  intros Hf Hj Hr st1. unfold native_dispatch, try_except. rewrite Hf.
  unfold mbind, M_bind. rewrite Hj. simpl. unfold call. simpl. rewrite Hr.
  by destruct (is_Exception e).
Qed.

End DispatchMore.

(** A tool of two required parameters, written for the raw block: the
    keyword call cannot bind, the second call gets the block. *)
Lemma type_error_falls_back_to_block_witness :
  let legacy : callable unit :=
    Callable [MkParameter "a" POSITIONAL_OR_KEYWORD false;
              MkParameter "b" POSITIONAL_OR_KEYWORD false]
             (λ a w, match args_pos a with
                     | [PStr b] => (Ok (PStr b), w)
                     | _ => (Raise (Exn TypeError "missing argument"), w)
                     end) in
  let r :=
    Agent.invoke "legacy" legacy [("x", "1")] "<legacy><x>1</x></legacy>"
      (Scenario.fresh Scenario.time_agent) in
  r.1 = Ok (PStr "<legacy><x>1</x></legacy>")
  ∧ Agent.calls r.2
    = [("legacy", Args [] [("x", PStr "1")]);
       ("legacy", Args [PStr "<legacy><x>1</x></legacy>"] [])].
Proof.
  intros legacy r. unfold r.
  rewrite (type_error_falls_back_to_block "legacy" legacy [("x", "1")]
             "<legacy><x>1</x></legacy>" (Scenario.fresh Scenario.time_agent)
             (Exn TypeError "missing argument") ()
             eq_refl ltac:(discriminate) eq_refl eq_refl).
  split; reflexivity.
Defined.

(** [attempt_completion] called as a function by [scheduling_agent]. *)
Lemma native_dispatch_of_a_raising_tool_witness :
  (Agent.native_dispatch Scenario.py Scenario.scheduling_agent Scenario.tool_registry
     (Agent.ToolCall (Some "call_0") "attempt_completion" "{}")
     (Scenario.fresh Scenario.scheduling_agent)).1
  = Raise (Exn SystemExit "0").
Proof.
  rewrite (native_dispatch_of_a_raising_tool Scenario.py Scenario.scheduling_agent
             Scenario.tool_registry
             (Agent.ToolCall (Some "call_0") "attempt_completion" "{}")
             _ [] (Exn SystemExit "0") ()
             (Scenario.fresh Scenario.scheduling_agent) eq_refl eq_refl eq_refl).
  reflexivity.
Defined.

Section ResolutionMore.
Context {W : Type}.
Import Agent.
Implicit Types (py : python) (ag : agent W) (reg : Registry.t W) (st : state W).

(** The permission [register_tool] grants to a resolved agent name. *)
Definition permits (allowed : Registry.allowed_arg) (canonical : string) : bool :=
  match Registry.permitted_of allowed with
  | None => true
  | Some l => bool_decide (canonical ∈ l)
  end.

(** X16. A tool that has just been registered is what its name resolves to
    for every agent it is allowed to, whatever attribute of that name the
    agent has; for an agent it is not allowed to, the name resolves to the
    agent's own method of that name, if it has one, and to nothing
    otherwise. *)
Theorem registered_tool_shadows_methods ag allowed descr nm params func_name func reg :
  find_tool ag
    (Registry.register_tool allowed descr nm params func_name func reg)
    (Registry.tool_name_of nm func_name)
  = if permits allowed (Registry.canonical_name reg (uuid ag)) then Some func
    else match getattr ag (Registry.tool_name_of nm func_name) with
         | Some (Method m) => Some m
         | _ => None
         end.
Proof.
  unfold find_tool, Registry.check_permission, Registry.get_tool_info,
    Registry.register_tool, Registry.tool_name_of, permits, Registry.canonical_name.
  simpl. rewrite get_set_eq. simpl.
  destruct (Registry.permitted_of allowed) as [l|]; [|done].
  by destruct (bool_decide _).
Qed.

(** X17. A turn on the inline-tag path with one block, whose tool is found
    and returns [v], and no marker. The call goes on from the state the
    tool left: to the history as it is after the tool, the system message
    [<tool> results: <v>] is appended, and the next request carries that
    history. The text of the model is not appended. *)
Theorem tool_result_is_sent_back py ag reg rsp messages images tool st
    text l st1 block tool_name children f v st2 :
  receive ag rsp (send ag reg messages images st).2 = (Ok (Some text, l), st1) →
  fc_model ag && negb (bool_decide (l = [])) = false →
  Xml.xml_blocks (nonascii_word py) text = [block] →
  soup_find py block = Some (tool_name, children) →
  find_tool ag reg tool_name = Some f →
  invoke tool_name f (Xml.xml_params children) block (announced ag block st1)
  = (Ok v, st2) →
  PyStr.contains completion_marker text = false →
  let h := history st2 ++ [Msg system (tool_name +:+ " results: " +:+ str py v)] in
  let tools := if fc_model ag then Some (tools_schema ag reg) else None in
  conversation_with_tool py ag reg [rsp] messages images tool st
  = (Ok Awaiting,
     State h (stream_run st2) (outputs st2) (calls st2)
           (requests st2 ++ [Request h tools]) (world st2)).
Proof.
  intros Hr Hfc Hb Hs Hf Hi Hm h tools.
  rewrite conversation_step. erewrite turn_inline; [|exact Hr|exact Hfc].
  unfold xml_turn, mbind at 1, M_bind at 1. rewrite Hb.
  rewrite (xml_loop_found _ _ _ _ _ _ _ _ _ _ _ Hs Hf), Hi. simpl.
  rewrite Hm.
  unfold mbind at 1. unfold M_bind at 1.
  unfold append_results. simpl.
  unfold mbind, M_bind, send, post. simpl. reflexivity.
Qed.

End ResolutionMore.

(** [time_agent] is asked the time and answers with a call of [get_time]
    alone: the result goes back to the model in the second request. *)
Lemma tool_result_is_sent_back_witness :
  let r :=
    Agent.conversation_with_tool Scenario.py Scenario.time_agent Scenario.tool_registry
      [Scenario.says "<get_time></get_time>"] (Some "几点了") [] false
      (Scenario.fresh Scenario.time_agent) in
  r.1 = Ok Agent.Awaiting
  ∧ last (Agent.history r.2) = Some (Agent.Msg Agent.system "get_time results: 11:03")
  ∧ Agent.req_messages <$> last (Agent.requests r.2) = Some (Agent.history r.2).
Proof.
  intros r.
  pose proof (tool_result_is_sent_back Scenario.py Scenario.time_agent
                Scenario.tool_registry (Scenario.says "<get_time></get_time>")
                (Some "几点了") [] false (Scenario.fresh Scenario.time_agent)
                _ _ _ _ _ _ _ _ _
                eq_refl eq_refl eq_refl eq_refl eq_refl eq_refl eq_refl) as H.
  cbv zeta in H. unfold r. rewrite H. repeat split.
Defined.

(** ** A native call of an unknown tool *)

Section NativeMore.
Context {W : Type}.
Import Agent.
Implicit Types (py : python) (ag : agent W) (reg : Registry.t W) (st : state W).




End NativeMore.


(** ** What the model is offered and what dispatch finds *)

Section OfferMore.
Context {W : Type}.
Import Agent.
Implicit Types (py : python) (ag : agent W) (reg : Registry.t W) (st : state W).

Lemma permitted_tool_is_found ag reg n :
  Registry.check_permission reg (uuid ag) n = true →
  ∃ info, Registry.get_tool_info reg n = Some info
          ∧ find_tool ag reg n = Some (Registry.function info).
Proof.
  intros Hc. unfold find_tool. rewrite Hc.
  unfold Registry.check_permission in Hc. unfold Registry.get_tool_info.
  destruct (PyDict.get n (Registry._tools reg)) as [info|]; [|done].
  by exists info.
Qed.

(** X22. Every tool a function-calling request offers to the model is a
    tool the dispatch finds: a registry tool the agent is permitted (it
    then resolves to the registered function), or a built-in method the
    agent has. The registry is one that [register_tool] has filled. *)
Theorem offered_tools_resolve ag reg (n : string) :
  Registry.well_formed reg →
  n ∈ (tools_schema ag reg).*1.*1 →
  is_Some (find_tool ag reg n)
  ∧ (Registry.check_permission reg (uuid ag) n = true →
     Registry.function <$> Registry.get_tool_info reg n = find_tool ag reg n).
Proof.
  intros [_ Hnm] Hin. split.
  - unfold tools_schema in Hin. rewrite !fmap_app, elem_of_app in Hin.
    destruct Hin as [Hin|Hin].
    + apply list_elem_of_fmap in Hin as (y & -> & Hy).
      apply list_elem_of_fmap in Hy as (z & -> & Hz).
      unfold Registry.get_all_tools_schema in Hz.
      apply list_elem_of_omap in Hz as ([k info] & Hk & E). simpl in E.
      destruct (Registry.check_permission reg (uuid ag) k) eqn:Hc; [|done].
      injection E as <-. simpl.
      rewrite Forall_forall in Hnm. pose proof (Hnm _ Hk) as Hkn. simpl in Hkn.
      rewrite Hkn.
      destruct (permitted_tool_is_found ag reg k Hc) as (i & _ & ->). by eexists.
    + apply list_elem_of_fmap in Hin as (y & -> & Hy).
      apply list_elem_of_fmap in Hy as (z & -> & Hz).
      apply list_elem_of_In, filter_In in Hz as [_ Hz].
      unfold is_callable_attr in Hz. unfold find_tool.
      destruct (if Registry.check_permission reg (uuid ag) z.1.1
                then Registry.function <$> Registry.get_tool_info reg z.1.1
                else None); [by eexists|].
      by destruct (getattr ag z.1.1) as [[m|]|].
  - intros Hc. by destruct (permitted_tool_is_found ag reg n Hc) as (i & -> & ->).
Qed.

End OfferMore.

(** [scheduling_agent] is offered [list_agents]; [get_time] is not for
    it. *)
Lemma offered_tools_resolve_witness :
  is_Some (Agent.find_tool Scenario.scheduling_agent Scenario.tool_registry "list_agents")
  ∧ (Agent.tools_schema Scenario.scheduling_agent Scenario.tool_registry).*1.*1
    = ["ask_for_help"; "list_agents"; "attempt_completion"].
Proof.
  split; [|reflexivity].
  apply (offered_tools_resolve Scenario.scheduling_agent Scenario.tool_registry
           "list_agents").
  - split; [apply NoDup_singleton | by repeat constructor].
  - apply (list_elem_of_lookup_2 _ 1). reflexivity.
Defined.

(** ** [list_agents] *)

Section RosterMore.
Context {Obj : Type} (uuid_of name_of : Obj → option string).

Local Abbreviation note_agent := (note_agent uuid_of name_of).
Local Abbreviation unique_agents := (unique_agents uuid_of name_of).
Local Abbreviation list_agents := (list_agents uuid_of name_of).





End RosterMore.


(** * The MCP bridge ([mcp_bridge.py]) *)

Module Mcp.

(** One value of [MCP_SESSION_POOL], as far as the wrappers use it:
    [session_info.get("initialized")], and what the server answers to
    [session.call_tool(name, kwargs)] and [session.read_resource(uri)]
    (the [content], or [contents], of the result: a list), or the
    exception of the call. *)
Record session_info := SessionInfo {
  initialized : bool;
  call_tool : string → list (string * pyval) → result (list pyval);
  read_resource : string → result (list pyval)
}.

(** [MCP_SESSION_POOL]: server path to session. *)
Definition pool := gmap string session_info.

Definition uninitialised (server_path : string) : exn :=
  Exn (OtherException "RuntimeError") ("MCP 会话未初始化：" +:+ server_path).

(** From [session_info = None] to [session = session_info["session"]]. *)
Definition session_of (server_path : string) (p : pool) : result session_info :=
  match p !! server_path with
  | Some session_info =>
      if initialized session_info then Ok session_info
      else Raise (uninitialised server_path)
  | None => Raise (uninitialised server_path)
  end.

(** [content or ""] *)
Definition or_empty (content : list pyval) : pyval :=
  match content with
  | [] => PStr EmptyString
  | _ => PList content
  end.

Definition plural (n : nat) : string :=
  match n with 1%nat => "was" | _ => "were" end.

(** The [TypeError] of a call that gives positional arguments to a
    function that takes none. *)
Definition too_many_positional (qualname : string) (n : nat) : exn :=
  Exn TypeError (qualname +:+ "() takes 0 positional arguments but "
                 +:+ pretty n +:+ " " +:+ plural n +:+ " given").

(** The [TypeError] of a call that gives a keyword to a function that has
    no such parameter. *)
Definition unexpected_keyword (qualname k : string) : exn :=
  Exn TypeError (qualname +:+ "() got an unexpected keyword argument '"
                 +:+ k +:+ "'").

(** [_make_tool_wrapper(tool_name, server_path, input_schema)]: the
    function [sync_wrapper], which takes keyword arguments only. Its handler
    logs and raises again. *)
Definition _make_tool_wrapper (tool_name server_path : string) : callable pool :=
  Callable [MkParameter "kwargs" VAR_KEYWORD false]
    (λ a p,
       match args_pos a with
       | _ :: _ =>
           (Raise (too_many_positional "_make_tool_wrapper.<locals>.sync_wrapper"
                     (length (args_pos a))), p)
       | [] =>
           match session_of server_path p with
           | Raise e => (Raise e, p)
           | Ok session =>
               match call_tool session tool_name (args_kw a) with
               | Ok content => (Ok (or_empty content), p)
               | Raise e => (Raise e, p)
               end
           end
       end).

(** [_make_resource_wrapper(resource_uri, server_path)]: the function
    [sync_wrapper()], of no parameter. *)
Definition _make_resource_wrapper (resource_uri server_path : string)
    : callable pool :=
  Callable []
    (λ a p,
       match args_kw a, args_pos a with
       | (k, _) :: _, _ =>
           (Raise (unexpected_keyword "_make_resource_wrapper.<locals>.sync_wrapper" k), p)
       | [], _ :: _ =>
           (Raise (too_many_positional "_make_resource_wrapper.<locals>.sync_wrapper"
                     (length (args_pos a))), p)
       | [], [] =>
           match session_of server_path p with
           | Raise e => (Raise e, p)
           | Ok session =>
               match read_resource session resource_uri with
               | Ok content => (Ok (or_empty content), p)
               | Raise e => (Raise e, p)
               end
           end
       end).

(** [_convert_mcp_schema_to_openai(mcp_schema)] *)
Definition _convert_mcp_schema_to_openai (mcp_schema : list (string * pyval))
    : list (string * pyval) :=
  match mcp_schema with
  | [] => [("type", PStr "object"); ("properties", PDict []); ("required", PList [])]
  | _ =>
      [("type", PStr "object");
       ("properties", default (PDict []) (PyDict.get "properties" mcp_schema));
       ("required", default (PList []) (PyDict.get "required" mcp_schema))]
  end.

(** A tool as the server lists it. *)
Record mcp_tool := McpTool {
  tool_name : string;
  tool_description : option string;
  inputSchema : list (string * pyval)
}.

(** [tool.description or f"MCP 工具：{tool_name}"] *)
Definition desc (t : mcp_tool) : string :=
  match tool_description t with
  | Some d => if String.eqb d EmptyString then "MCP 工具：" +:+ tool_name t else d
  | None => "MCP 工具：" +:+ tool_name t
  end.

(** The body of [for tool in tools] in [register_mcp_tools_async]. *)
Definition register_mcp_tool (allowed_agents : Registry.allowed_arg)
    (server_path : string) (t : mcp_tool) (reg : Registry.t pool)
    : Registry.t pool :=
  Registry.register_tool allowed_agents (desc t) (Some (tool_name t))
    (Some (PDict (_convert_mcp_schema_to_openai (inputSchema t))))
    "sync_wrapper" (_make_tool_wrapper (tool_name t) server_path) reg.

End Mcp.

Section McpMore.
Import Agent.
Implicit Types (py : python) (ag : agent Mcp.pool) (reg : Registry.t Mcp.pool)
  (st : state Mcp.pool).

(** X24. An MCP tool called from an inline-tag block: [session.call_tool]
    gets the child tags of the block as its arguments, each value a string
    whatever the schema of the tool says, and no argument when the block
    has no child; the answer of the server is the result of the tool, or
    the empty string when the answer has no content; an exception of the
    server is that of the call. The session is that of the tool's server,
    which is initialised. *)
Theorem mcp_tool_gets_the_tags_as_strings (n tool_name server_path : string)
    (params : list (string * string)) (block : string) st session :
  world st !! server_path = Some session →
  Mcp.initialized session = true →
  invoke n (Mcp._make_tool_wrapper tool_name server_path) params block st
  = (match Mcp.call_tool session tool_name (prod_map id PStr <$> params) with
     | Ok content => Ok (Mcp.or_empty content)
     | Raise e => Raise e
     end,
     called n (keywords params) (world st) st).
Proof.
  intros Hs Hi. unfold invoke. simpl.
  assert (∀ a, args_pos a = [] →
               call n (Mcp._make_tool_wrapper tool_name server_path) a st
               = (match Mcp.call_tool session tool_name (args_kw a) with
                  | Ok content => Ok (Mcp.or_empty content)
                  | Raise e => Raise e
                  end, called n a (world st) st)) as Hc.
  { intros a Ha. unfold call, called. simpl. rewrite Ha.
    unfold Mcp.session_of. rewrite Hs, Hi.
    by destruct (Mcp.call_tool session tool_name (args_kw a)). }
  destruct params as [|p params]; by rewrite Hc.
Qed.

(** X25. An MCP tool whose server has no initialised session in the pool.
    Called from an inline-tag block, the [RuntimeError] of the wrapper is
    the exception of the call, which nothing on that path catches; called
    as a native call, the error becomes the text of the tool result. *)
Theorem mcp_tool_without_session (tool_name server_path : string) st :
  Mcp.session_of server_path (world st) = Raise (Mcp.uninitialised server_path) →
  (∀ n params block,
     (invoke n (Mcp._make_tool_wrapper tool_name server_path) params block st).1
     = Raise (Mcp.uninitialised server_path))
  ∧ (∀ py ag reg tc d,
       find_tool ag reg (call_name tc)
       = Some (Mcp._make_tool_wrapper tool_name server_path) →
       json_loads py (call_arguments tc) = Ok (PDict d) →
       (native_dispatch py ag reg tc st).1
       = Ok (NativeResult (call_id tc) (call_name tc)
               (PStr ("执行工具 " +:+ call_name tc +:+ " 时出错: "
                      +:+ "MCP 会话未初始化：" +:+ server_path)))).
Proof.
  intros Hs. split.
  - intros n params block. unfold invoke. simpl.
    destruct params as [|p params]; unfold call; simpl; by rewrite Hs.
  - intros py ag reg tc d Hf Hj.
    unfold native_dispatch, try_except. rewrite Hf.
    unfold mbind, M_bind. rewrite Hj. simpl. unfold call. simpl. by rewrite Hs.
Qed.

(** X26. A resource of an MCP server, registered as a tool of no
    parameter: an inline-tag block that gives it a child tag makes the
    call raise [TypeError] before the resource is read, and the exception
    leaves the dispatch (the branch has no handler); a block with no child
    reads the resource. *)
Theorem mcp_resource_takes_no_parameter (n resource_uri server_path : string)
    (params : list (string * string)) (block : string) st :
  match params with
  | [] =>
      invoke n (Mcp._make_resource_wrapper resource_uri server_path) params block st
      = (match Mcp.session_of server_path (world st) with
         | Ok session =>
             match Mcp.read_resource session resource_uri with
             | Ok content => Ok (Mcp.or_empty content)
             | Raise e => Raise e
             end
         | Raise e => Raise e
         end,
         called n (Args [] []) (world st) st)
  | _ :: _ =>
      ∃ msg,
        invoke n (Mcp._make_resource_wrapper resource_uri server_path) params block st
        = (Raise (Exn TypeError msg), called n (keywords params) (world st) st)
  end.
Proof.
  unfold invoke. simpl. destruct params as [|[k v] params]; unfold call, called; simpl.
  - destruct (Mcp.session_of server_path (world st)) as [session|e]; [|done].
    by destruct (Mcp.read_resource session resource_uri).
  - by eexists.
Qed.

(** X27. The parameter schema of an MCP tool: the conversion gives an
    object schema of exactly three keys, with the [properties] and the
    [required] of the server's schema (any other key is dropped), it
    changes nothing when applied again, and it is what the registry
    stores for the tool and offers to the model. *)
Theorem mcp_schema_is_normalised (s : list (string * pyval)) :
  let c := Mcp._convert_mcp_schema_to_openai s in
  PyDict.keys c = ["type"; "properties"; "required"]
  ∧ PyDict.get "properties" c = Some (default (PDict []) (PyDict.get "properties" s))
  ∧ PyDict.get "required" c = Some (default (PList []) (PyDict.get "required" s))
  ∧ Mcp._convert_mcp_schema_to_openai c = c
  ∧ ∀ allowed server_path name descr reg,
      name ≠ EmptyString →
      Registry.get_tool_schema
        (Mcp.register_mcp_tool allowed server_path (Mcp.McpTool name descr s) reg) name
      = Some (name, Mcp.desc (Mcp.McpTool name descr s), PDict c).
Proof.
  cbv zeta. split; [by destruct s|]. split; [by destruct s|].
  split; [by destruct s|]. split; [by destruct s|].
  intros allowed server_path name descr reg Hn.
  unfold Registry.get_tool_schema, Mcp.register_mcp_tool, Registry.register_tool.
  simpl. destruct (String.eqb_spec name EmptyString) as [|_]; [done|].
  rewrite get_set_eq. simpl. by destruct s.
Qed.

End McpMore.

(** A weather tool of an MCP server, called with a block that gives a
    city and a number of days. *)
Lemma mcp_tool_gets_the_tags_as_strings_witness :
  let session :=
    Mcp.SessionInfo true (λ _ kw, Ok [PDict kw]) (λ _, Ok []) in
  let st := Agent.State [] false [] [] [] ({["server.py" := session]} : Mcp.pool) in
  (Agent.invoke "forecast" (Mcp._make_tool_wrapper "forecast" "server.py")
     [("city", "Paris"); ("days", "3")]
     "<forecast><city>Paris</city><days>3</days></forecast>" st).1
  = Ok (PList [PDict [("city", PStr "Paris"); ("days", PStr "3")]]).
Proof.
  intros session st.
  rewrite (mcp_tool_gets_the_tags_as_strings "forecast" "forecast" "server.py"
             [("city", "Paris"); ("days", "3")]
             "<forecast><city>Paris</city><days>3</days></forecast>" st session
             eq_refl eq_refl).
  reflexivity.
Defined.

(** The same tool before any session is opened. *)
Lemma mcp_tool_without_session_witness :
  let st := Agent.State [] false [] [] [] (∅ : Mcp.pool) in
  (Agent.invoke "forecast" (Mcp._make_tool_wrapper "forecast" "server.py")
     [("city", "Paris")] "<forecast><city>Paris</city></forecast>" st).1
  = Raise (Exn (OtherException "RuntimeError") "MCP 会话未初始化：server.py").
Proof.
  intros st.
  exact (proj1 (mcp_tool_without_session "forecast" "server.py" st eq_refl)
           "forecast" [("city", "Paris")] "<forecast><city>Paris</city></forecast>").
Defined.
